(** * scvi.models.distributions: the NB and ZINB count distributions

    A shallow embedding of [src/scvi/models/distributions.py].

    - Tensor elements are IEEE-style values with exact arithmetic: a finite
      real, one of the two infinities, or NaN.  Rounding, overflow, underflow
      and signed zeros are not modelled (finite operands give the exact real
      result); the special-value rules (division by zero, [log 0],
      comparisons with NaN) are.
    - A tensor is a one-dimensional list of such values; broadcasting follows
      torch for that rank (a size-1 tensor expands, other mismatches raise).
    - Python exceptions are values of [error]; a call returns a [result].
    - Random draws thread an explicit generator state.
    - [sample] is modelled at its default [sample_shape = torch.Size()]. *)

From Stdlib Require Import String Reals Lra List Bool ZArith Lia.
Import ListNotations.
Open Scope R_scope.

(** ** Decidable comparisons on the reals, as booleans *)

Definition Rleb (x y : R) : bool := if Rle_dec x y then true else false.
Definition Rltb (x y : R) : bool := if Rlt_dec x y then true else false.
Definition Reqb (x y : R) : bool := if Req_dec_T x y then true else false.

Arguments Rleb : simpl never.
Arguments Rltb : simpl never.
Arguments Reqb : simpl never.

(** ** Scalars *)

Inductive scalar : Type :=
| Finite (r : R)
| PosInf
| NegInf
| NaN.

Module Num.

Definition zero : scalar := Finite 0.

Definition is_nan (x : scalar) : bool :=
  match x with NaN => true | _ => false end.

Definition is_zero (x : scalar) : bool :=
  match x with Finite r => Reqb r 0 | _ => false end.

Definition opp (x : scalar) : scalar :=
  match x with
  | Finite a => Finite (- a)
  | PosInf => NegInf
  | NegInf => PosInf
  | NaN => NaN
  end.

Definition add (x y : scalar) : scalar :=
  match x, y with
  | NaN, _ | _, NaN => NaN
  | Finite a, Finite b => Finite (a + b)
  | PosInf, NegInf | NegInf, PosInf => NaN
  | PosInf, _ | _, PosInf => PosInf
  | NegInf, _ | _, NegInf => NegInf
  end.

Definition sub (x y : scalar) : scalar := add x (opp y).

(** [signed a p n]: [p] for positive [a], [n] for negative [a], NaN at 0. *)
Definition signed (a : R) (p n : scalar) : scalar :=
  if Rltb 0 a then p else if Rltb a 0 then n else NaN.

Definition mul (x y : scalar) : scalar :=
  match x, y with
  | NaN, _ | _, NaN => NaN
  | Finite a, Finite b => Finite (a * b)
  | Finite a, PosInf | PosInf, Finite a => signed a PosInf NegInf
  | Finite a, NegInf | NegInf, Finite a => signed a NegInf PosInf
  | PosInf, PosInf | NegInf, NegInf => PosInf
  | PosInf, NegInf | NegInf, PosInf => NegInf
  end.

(** The value IEEE arithmetic gives to [x / 0]. *)
Definition div_by_zero (x : scalar) : scalar :=
  match x with
  | Finite a => signed a PosInf NegInf
  | PosInf => PosInf
  | NegInf => NegInf
  | NaN => NaN
  end.

(** Division with the zero divisor singled out: [None] is the
    division-by-zero branch. *)
Definition checked_div (x y : scalar) : option scalar :=
  if is_zero y then None
  else Some
    match x, y with
    | NaN, _ | _, NaN => NaN
    | Finite a, Finite b => Finite (a / b)
    | Finite _, PosInf | Finite _, NegInf => Finite 0
    | PosInf, Finite b => if Rltb b 0 then NegInf else PosInf
    | NegInf, Finite b => if Rltb b 0 then PosInf else NegInf
    | _, _ => NaN
    end.

(** torch's [/]: never raises, a zero divisor yields an infinity or NaN. *)
Definition div (x y : scalar) : scalar :=
  match checked_div x y with
  | Some q => q
  | None => div_by_zero x
  end.

Definition exp (x : scalar) : scalar :=
  match x with
  | Finite a => Finite (Rtrigo_def.exp a)
  | PosInf => PosInf
  | NegInf => Finite 0
  | NaN => NaN
  end.

Definition log (x : scalar) : scalar :=
  match x with
  | Finite a =>
      if Rltb 0 a then Finite (ln a)
      else if Reqb a 0 then NegInf else NaN
  | PosInf => PosInf
  | NegInf => NaN
  | NaN => NaN
  end.

Definition log1p (x : scalar) : scalar := log (add (Finite 1) x).

Definition sigmoid (x : scalar) : scalar :=
  match x with
  | Finite a => Finite (/ (1 + Rtrigo_def.exp (- a)))
  | PosInf => Finite 1
  | NegInf => Finite 0
  | NaN => NaN
  end.

(** [x <= y]; false as soon as one side is NaN. *)
Definition leb (x y : scalar) : bool :=
  match x, y with
  | NaN, _ | _, NaN => false
  | NegInf, _ => true
  | _, PosInf => true
  | Finite a, Finite b => Rleb a b
  | _, _ => false
  end.

(** [x < y]; false as soon as one side is NaN. *)
Definition ltb (x y : scalar) : bool :=
  match x, y with
  | NaN, _ | _, NaN => false
  | PosInf, _ => false
  | _, NegInf => false
  | Finite a, Finite b => Rltb a b
  | _, _ => true
  end.

Definition eqb (x y : scalar) : bool :=
  match x, y with
  | Finite a, Finite b => Reqb a b
  | PosInf, PosInf | NegInf, NegInf => true
  | _, _ => false
  end.

(** [x % 1]: the remainder has the sign of the divisor, so on a finite value
    it is the fractional part; on an infinity it is NaN. *)
Definition mod1 (x : scalar) : scalar :=
  match x with
  | Finite a => Finite (frac_part a)
  | _ => NaN
  end.

(** [torch.clamp(x, max=hi)] on one element: NaN is passed through. *)
Definition clamp_max (hi : scalar) (x : scalar) : scalar :=
  if is_nan x then NaN else if ltb hi x then hi else x.

Definition clamp_min (lo : scalar) (x : scalar) : scalar :=
  if is_nan x then NaN else if ltb x lo then lo else x.

(** The minimum of two values in the order
    [NegInf < Finite _ < PosInf], NaN if either is NaN. *)
Definition min (x y : scalar) : scalar :=
  match x, y with
  | NaN, _ | _, NaN => NaN
  | NegInf, _ | _, NegInf => NegInf
  | PosInf, z | z, PosInf => z
  | Finite a, Finite b => Finite (Rmin a b)
  end.

End Num.

(** ** Tensors, exceptions *)

Definition tensor : Type := list scalar.

Inductive error : Type :=
| ConfigurationError  (* the ValueError raised by NB.__init__ itself *)
| DomainError         (* the ValueError of torch's argument/sample validation *)
| ArgumentError       (* the ValueError of broadcast_all on a non-tensor *)
| ShapeError          (* RuntimeError: shapes are not broadcastable *)
| IndexError          (* boolean mask of the wrong shape *)
| AssertionError
| TypeError
| AttributeError
| UnpackError
| RecursionError.

Inductive result (A : Type) : Type :=
| Ok (a : A)
| Raise (e : error).
Arguments Ok {A} a.
Arguments Raise {A} e.

Definition bind {A B : Type} (c : result A) (k : A -> result B) : result B :=
  match c with
  | Ok a => k a
  | Raise e => Raise e
  end.

Declare Scope result_scope.
Delimit Scope result_scope with result.
Notation "x <- c ;; k" := (bind c (fun x => k))
  (at level 61, c at next level, right associativity) : result_scope.
Notation "' pat <- c ;; k" := (bind c (fun x => match x with pat => k end))
  (at level 61, pat pattern, c at next level, right associativity)
  : result_scope.
Open Scope result_scope.

Definition is_none {A : Type} (o : option A) : bool :=
  match o with None => true | Some _ => false end.

Definition is_some {A : Type} (o : option A) : bool := negb (is_none o).

(** ** Sources of randomness

    torch's global generator, made explicit: each primitive draws one value
    and returns the advanced generator state. *)

Class RandomSource : Type := {
  rng : Type;
  (* one Gamma(concentration, rate) draw *)
  gamma_draw : scalar -> scalar -> rng -> scalar * rng;
  (* one Poisson(rate) draw *)
  poisson_draw : scalar -> rng -> scalar * rng;
  (* one Uniform[0,1) draw *)
  uniform_draw : rng -> scalar * rng
}.

(** ** The parts of torch the module relies on *)

Module torch.

(** *** Broadcasting of one-dimensional shapes *)

Definition broadcast_size (a b : nat) : option nat :=
  if Nat.eqb a b then Some a
  else if Nat.eqb a 1 then Some b
  else if Nat.eqb b 1 then Some a
  else None.

Fixpoint broadcast_shape (acc : nat) (sizes : list nat) : option nat :=
  match sizes with
  | [] => Some acc
  | n :: rest =>
      match broadcast_size acc n with
      | Some m => broadcast_shape m rest
      | None => None
      end
  end.

(** [t.expand(n)] for a tensor already known to be compatible with [n]. *)
Definition expand (n : nat) (t : tensor) : tensor :=
  match t with
  | [x] => repeat x n
  | _ => t
  end.

Definition broadcast_tensors (ts : list tensor) : result (list tensor) :=
  match broadcast_shape 1 (map (@List.length scalar) ts) with
  | Some n => Ok (map (expand n) ts)
  | None => Raise ShapeError
  end.

Fixpoint all_tensors (vs : list (option tensor)) : option (list tensor) :=
  match vs with
  | [] => Some []
  | Some t :: rest =>
      match all_tensors rest with
      | Some ts => Some (t :: ts)
      | None => None
      end
  | None :: _ => None
  end.

(** [torch.distributions.utils.broadcast_all]: a [None] among the arguments
    is rejected with a ValueError before any broadcasting. *)
Definition broadcast_all (vs : list (option tensor)) : result (list tensor) :=
  match all_tensors vs with
  | Some ts => broadcast_tensors ts
  | None => Raise ArgumentError
  end.

(** *** Elementwise operations *)

Fixpoint zip_with {A B C : Type} (f : A -> B -> C)
    (xs : list A) (ys : list B) : list C :=
  match xs, ys with
  | x :: xs', y :: ys' => f x y :: zip_with f xs' ys'
  | _, _ => []
  end.

(** A binary operator on two tensors broadcasts them first. *)
Definition binop {C : Type} (f : scalar -> scalar -> C)
    (a b : tensor) : result (list C) :=
  match broadcast_size (List.length a) (List.length b) with
  | Some n => Ok (zip_with f (expand n a) (expand n b))
  | None => Raise ShapeError
  end.

Definition sub (a b : tensor) : result tensor := binop Num.sub a b.
Definition mul (a b : tensor) : result tensor := binop Num.mul a b.
Definition div (a b : tensor) : result tensor := binop Num.div a b.
Definition le (a b : tensor) : result (list bool) := binop Num.leb a b.

(** Tensor with a Python number. *)
Definition add_scalar (a : tensor) (c : scalar) : tensor :=
  map (fun x => Num.add x c) a.

Definition exp (a : tensor) : tensor := map Num.exp a.
Definition log (a : tensor) : tensor := map Num.log a.
Definition log1p (a : tensor) : tensor := map Num.log1p a.
Definition neg (a : tensor) : tensor := map Num.opp a.
Definition sigmoid (a : tensor) : tensor := map Num.sigmoid a.

(** [torch.clamp(a, max=hi)] *)
Definition clamp_max (a : tensor) (hi : scalar) : tensor :=
  map (Num.clamp_max hi) a.

(** [torch.clamp(a, min=lo, max=hi)] *)
Definition clamp (a : tensor) (lo hi : scalar) : tensor :=
  map (fun x => Num.clamp_max hi (Num.clamp_min lo x)) a.

(** [t[mask] = v]: the boolean mask must have the shape of [t]. *)
Definition masked_fill (t : tensor) (mask : list bool) (v : scalar)
    : result tensor :=
  if Nat.eqb (List.length mask) (List.length t)
  then Ok (zip_with (fun x (m : bool) => if m then v else x) t mask)
  else Raise IndexError.

(** *** torch.distributions.utils *)

(** [torch.finfo(torch.float32).eps] *)
Definition finfo_eps : R := / 2 ^ 23.

Definition clamp_probs (probs : tensor) : tensor :=
  clamp probs (Finite finfo_eps) (Finite (1 - finfo_eps)).

Definition probs_to_logits (probs : tensor) (is_binary : bool)
    : result tensor :=
  let ps_clamped := clamp_probs probs in
  if is_binary then sub (log ps_clamped) (log1p (neg ps_clamped))
  else Ok (log ps_clamped).

(** Only the binary case is used by this module. *)
Definition logits_to_probs (logits : tensor) : tensor := sigmoid logits.

(** *** torch.distributions.constraints *)

Module constraints.

Inductive constraint : Type :=
| greater_than_eq (lower_bound : R)
| half_open_interval (lower_bound upper_bound : R)
| real
| nonnegative_integer.

Definition check1 (c : constraint) (x : scalar) : bool :=
  match c with
  | greater_than_eq lb => Num.leb (Finite lb) x
  | half_open_interval lb ub =>
      Num.leb (Finite lb) x && Num.ltb x (Finite ub)
  | real => Num.eqb x x
  | nonnegative_integer =>
      Num.eqb (Num.mod1 x) Num.zero && Num.leb Num.zero x
  end.

(** [constraint.check(value).all()] *)
Definition check_all (c : constraint) (value : tensor) : bool :=
  forallb (check1 c) value.

End constraints.

(** *** torch.distributions.Distribution *)

(** The parameter validation of [Distribution.__init__].  [dict] is the
    instance [__dict__] at the time of the call and [is_lazy] tells which
    names are [lazy_property] attributes of the instance's class: a lazy
    attribute that has not been stored yet is skipped. *)
Fixpoint validate_params
    (arg_constraints : list (string * constraints.constraint))
    (dict : string -> option tensor) (is_lazy : string -> bool)
    : result unit :=
  match arg_constraints with
  | [] => Ok tt
  | (param, constraint) :: rest =>
      match dict param with
      | None =>
          if is_lazy param then validate_params rest dict is_lazy
          else Raise AttributeError
      | Some value =>
          if constraints.check_all constraint value
          then validate_params rest dict is_lazy
          else Raise DomainError
      end
  end.

Definition Distribution_init
    (arg_constraints : list (string * constraints.constraint))
    (dict : string -> option tensor) (is_lazy : string -> bool)
    (validate_args : bool) : result unit :=
  if validate_args then validate_params arg_constraints dict is_lazy
  else Ok tt.

(** [Distribution._validate_sample] for a distribution whose batch and event
    shapes are both empty (NB passes neither to [Distribution.__init__]): the
    shape tests hold for every value and the support test remains. *)
Definition validate_sample (support : constraints.constraint)
    (value : tensor) : result unit :=
  if constraints.check_all support value then Ok tt else Raise DomainError.

(** *** Samplers *)

Section Samplers.
Context {RS : RandomSource}.

Fixpoint draw_each {A : Type} (f : A -> rng -> scalar * rng)
    (xs : list A) (s : rng) : tensor * rng :=
  match xs with
  | [] => ([], s)
  | x :: xs' =>
      let (v, s1) := f x s in
      let (vs, s2) := draw_each f xs' s1 in
      (v :: vs, s2)
  end.

(** [torch.distributions.Gamma]; built with torch's default
    [validate_args], taken as it was before torch 1.8: the parameters are
    not checked. *)
Record Gamma : Type := {
  concentration : tensor;
  rate : tensor
}.

Definition Gamma_init (concentration rate : tensor) : result Gamma :=
  match broadcast_all [Some concentration; Some rate] with
  | Ok [c; r] => Ok {| concentration := c; rate := r |}
  | Ok _ => Raise UnpackError
  | Raise e => Raise e
  end.

Definition Gamma_sample (d : Gamma) (s : rng) : tensor * rng :=
  draw_each (fun cr : scalar * scalar => gamma_draw (fst cr) (snd cr))
    (combine (concentration d) (rate d)) s.

(** [torch.distributions.Poisson], likewise built without a check of its
    rate. *)
Record Poisson : Type := { Poisson_rate : tensor }.

Definition Poisson_init (rate : tensor) : Poisson :=
  {| Poisson_rate := rate |}.

Definition Poisson_sample (d : Poisson) (s : rng) : tensor * rng :=
  draw_each poisson_draw (Poisson_rate d) s.

(** [torch.rand_like]: one uniform draw per element of [t]. *)
Definition rand_like (t : tensor) (s : rng) : tensor * rng :=
  draw_each (fun _ : scalar => uniform_draw) t s.

End Samplers.

End torch.

(** ** The log-likelihood kernels

    [log_nb_positive] and [log_zinb_positive] live in
    [scvi.models.log_likelihood]; [log_prob] only forwards to them, so they
    are taken as given pure functions
    [(value, mu, theta, eps)] and [(value, mu, theta, zi_logits, eps)]. *)

Class Kernels : Type := {
  log_nb_positive : tensor -> tensor -> tensor -> scalar -> tensor;
  log_zinb_positive :
    tensor -> tensor -> tensor -> tensor -> scalar -> tensor
}.

(** ** scvi.models.distributions *)

Definition unpack2 {A : Type} (c : result (list A)) : result (A * A) :=
  match c with
  | Ok [a; b] => Ok (a, b)
  | Ok _ => Raise UnpackError
  | Raise e => Raise e
  end.

Definition unpack3 {A : Type} (c : result (list A)) : result (A * A * A) :=
  match c with
  | Ok [a; b; c] => Ok (a, b, c)
  | Ok _ => Raise UnpackError
  | Raise e => Raise e
  end.

(** [t.type_as(other)]: the model has one element type, so the tensor is
    returned as it is; on [None] the attribute lookup fails. *)
Definition type_as (t : option tensor) (other : tensor) : result tensor :=
  match t with
  | Some t => Ok t
  | None => Raise AttributeError
  end.

(** [eps] is 1e-6 when the caller leaves it out. *)
Definition from_nb_params2_to_1 (mu theta : option tensor) (eps : scalar)
    : result (tensor * tensor) :=
  if negb (Bool.eqb (is_none mu) (is_none theta)) then Raise AssertionError
  else
    match mu, theta with
    | Some mu, Some theta =>
        logits <- torch.sub (torch.log (torch.add_scalar mu eps))
                            (torch.log (torch.add_scalar theta eps)) ;;
        let total_count := theta in
        Ok (total_count, logits)
    | _, _ => Raise TypeError
    end.

Definition from_nb_params1_to_2 (total_count logits : tensor)
    : result (tensor * tensor) :=
  let theta := total_count in
  mu <- torch.mul (torch.exp logits) theta ;;
  Ok (mu, theta).

(** The two classes; [self.arg_constraints] and the lazy properties are
    looked up on the class of the instance. *)
Inductive class : Type := cls_NB | cls_ZINB.

Import torch.constraints.

Definition arg_constraints (cls : class) : list (string * constraint) :=
  match cls with
  | cls_NB =>
      [ ("mu"%string, greater_than_eq 0);
        ("theta"%string, greater_than_eq 0) ]
  | cls_ZINB =>
      [ ("mu"%string, greater_than_eq 0);
        ("theta"%string, greater_than_eq 0);
        ("zi_probs"%string, half_open_interval 0 1);
        ("zi_logits"%string, real) ]
  end.

Definition support : constraint := nonnegative_integer.

Definition is_lazy_property (cls : class) (name : string) : bool :=
  match cls with
  | cls_NB => false
  | cls_ZINB => String.eqb name "zi_logits" || String.eqb name "zi_probs"
  end.

(** An instance: its class and the attributes stored on it.  The two
    zero-inflation attributes are absent until assigned or computed. *)
Record instance : Type := {
  klass : class;
  mu : tensor;
  theta : tensor;
  _eps : scalar;
  _validate_args : bool;
  zi_logits_slot : option tensor;
  zi_probs_slot : option tensor
}.

Definition __dict__ (self : instance) (name : string) : option tensor :=
  if String.eqb name "mu" then Some (mu self)
  else if String.eqb name "theta" then Some (theta self)
  else if String.eqb name "zi_logits" then zi_logits_slot self
  else if String.eqb name "zi_probs" then zi_probs_slot self
  else None.

Definition set_zi_probs (self : instance) (v : tensor) : instance :=
  {| klass := klass self; mu := mu self; theta := theta self;
     _eps := _eps self; _validate_args := _validate_args self;
     zi_logits_slot := zi_logits_slot self; zi_probs_slot := Some v |}.

Definition set_zi_logits (self : instance) (v : tensor) : instance :=
  {| klass := klass self; mu := mu self; theta := theta self;
     _eps := _eps self; _validate_args := _validate_args self;
     zi_logits_slot := Some v; zi_probs_slot := zi_probs_slot self |}.

Module NB.

(** [cls] is the class being instantiated ([ZINB.__init__] runs this
    constructor through [super()]). *)
Definition __init__ (cls : class)
    (total_count probs logits mu theta : option tensor)
    (validate_args : bool) : result instance :=
  let _eps := Finite 1e-8 in
  if Bool.eqb (is_none mu) (is_none total_count) then Raise ConfigurationError
  else
    let using_param_1 :=
      is_some total_count && (is_some logits || is_some probs) in
    '(mu, theta) <-
      (if using_param_1 then
         logits <- match logits with
                   | Some l => Ok l
                   | None =>
                       match probs with
                       | Some p => torch.probs_to_logits p false
                       | None => Raise TypeError
                       end
                   end ;;
         total_count <- type_as total_count logits ;;
         '(total_count, logits) <-
           unpack2 (torch.broadcast_all [Some total_count; Some logits]) ;;
         from_nb_params1_to_2 total_count logits
       else unpack2 (torch.broadcast_all [mu; theta])) ;;
    let self :=
      {| klass := cls; mu := mu; theta := theta; _eps := _eps;
         _validate_args := validate_args;
         zi_logits_slot := None; zi_probs_slot := None |} in
    _ <- torch.Distribution_init (arg_constraints cls) (__dict__ self)
           (is_lazy_property cls) validate_args ;;
    Ok self.

Definition _gamma (self : instance) : result torch.Gamma :=
  let concentration := theta self in
  rate <- torch.div (theta self) (mu self) ;;
  torch.Gamma_init concentration rate.

Definition sample `{RandomSource} (self : instance) (s : rng)
    : result (tensor * rng) :=
  gamma_d <- _gamma self ;;
  let (p_means, s1) := torch.Gamma_sample gamma_d s in
  let l_train := torch.clamp_max p_means (Finite 1e8) in
  let (counts, s2) := torch.Poisson_sample (torch.Poisson_init l_train) s1 in
  Ok (counts, s2).

Definition log_prob `{Kernels} (self : instance) (value : tensor)
    : result tensor :=
  _ <- (if _validate_args self then torch.validate_sample support value
        else Ok tt) ;;
  Ok (log_nb_positive value (mu self) (theta self) (_eps self)).

End NB.

Module ZINB.

Definition __init__
    (total_count probs logits mu theta zi_logits : option tensor)
    (validate_args : bool) : result instance :=
  self <- NB.__init__ cls_ZINB total_count probs logits mu theta
            validate_args ;;
  let '{| mu := self_mu; theta := self_theta |} := self in
  '(zi_logits, mu, theta) <-
    unpack3 (torch.broadcast_all [zi_logits; Some self_mu; Some self_theta]) ;;
  Ok {| klass := klass self; mu := mu; theta := theta;
        _eps := _eps self; _validate_args := _validate_args self;
        zi_logits_slot := Some zi_logits;
        zi_probs_slot := zi_probs_slot self |}.

(** The two lazy properties.  Each returns the stored attribute when there
    is one; otherwise it evaluates its body, stores the value on the instance
    and returns it.  With neither attribute stored the two bodies call each
    other without end. *)
Definition zi_probs (self : instance) : result (tensor * instance) :=
  match zi_probs_slot self with
  | Some p => Ok (p, self)
  | None =>
      match zi_logits_slot self with
      | Some l =>
          let p := torch.logits_to_probs l in
          Ok (p, set_zi_probs self p)
      | None => Raise RecursionError
      end
  end.

Definition zi_logits (self : instance) : result (tensor * instance) :=
  match zi_logits_slot self with
  | Some l => Ok (l, self)
  | None =>
      match zi_probs_slot self with
      | Some p =>
          l <- torch.probs_to_logits p true ;;
          Ok (l, set_zi_logits self l)
      | None => Raise RecursionError
      end
  end.

Definition sample `{RandomSource} (self : instance) (s : rng)
    : result (tensor * instance * rng) :=
  '(samp, s1) <- NB.sample self s ;;
  let (u, s2) := torch.rand_like samp s1 in
  '(p, self') <- zi_probs self ;;
  is_zero <- torch.le u p ;;
  samp' <- torch.masked_fill samp is_zero (Finite 0) ;;
  Ok (samp', self', s2).

Definition log_prob `{Kernels} (self : instance) (value : tensor)
    : result (tensor * instance) :=
  _ <- (if _validate_args self then torch.validate_sample support value
        else Ok tt) ;;
  '(l, self') <- zi_logits self ;;
  Ok (log_zinb_positive value (mu self) (theta self) l (Finite 1e-08),
      self').

End ZINB.

(** ** Vocabulary of the statements *)

(** An observed value is a count when it is a finite integer that is not
    negative. *)
Definition integer_valued (x : scalar) : Prop :=
  exists k : Z, x = Finite (IZR k).

Definition negative (x : scalar) : Prop := Num.ltb x (Finite 0) = true.

Definition positive (x : scalar) : Prop := Num.ltb (Finite 0) x = true.

(** The shape invariant of an instance: [mu] and [theta] have one shape, and
    so does [zi_logits] on a ZINB instance. *)
Definition same_shape (self : instance) : Prop :=
  List.length (mu self) = List.length (theta self).

Definition zinb_shape (self : instance) : Prop :=
  same_shape self
  /\ exists l, zi_logits_slot self = Some l
             /\ List.length l = List.length (mu self)
             /\ (forall p, zi_probs_slot self = Some p ->
                  List.length p = List.length l).

(** The parameters a constructor call normalizes its inputs to: the [mu] and
    [theta] of the instance the call builds when nothing is validated. *)
Definition normalized_parameters
    (total_count probs logits mu0 theta0 : option tensor)
    : result (tensor * tensor) :=
  self <- NB.__init__ cls_NB total_count probs logits mu0 theta0 false ;;
  Ok (mu self, theta self).

(** A generator and kernels to run the definitions on concrete inputs: the
    generator state counts the draws; a Gamma draw returns its
    concentration, a Poisson draw its rate, and the uniform draws alternate
    between 1/4 and 3/4. *)
Definition counting_source : RandomSource := {|
  rng := nat;
  gamma_draw := fun c _ s => (c, S s);
  poisson_draw := fun l s => (l, S s);
  uniform_draw := fun s =>
    (if Nat.even s then Finite (1 / 4) else Finite (3 / 4), S s)
|}.

Definition echo_kernels : Kernels := {|
  log_nb_positive := fun value _ _ _ => value;
  log_zinb_positive := fun value _ _ _ _ => value
|}.

(** A two-element ZINB instance, as the constructor leaves it. *)
Definition example_ZINB : instance := {|
  klass := cls_ZINB;
  mu := [Finite 2; Finite 2];
  theta := [Finite 1; Finite 1];
  _eps := Finite 1e-8;
  _validate_args := true;
  zi_logits_slot := Some [Finite 0; Finite 0];
  zi_probs_slot := None
|}.

(** * Properties *)

(** ** Comparisons *)

Lemma Rleb_spec (x y : R) : reflect (x <= y) (Rleb x y).
Proof. unfold Rleb. destruct (Rle_dec x y); constructor; assumption. Qed.

Lemma Rltb_spec (x y : R) : reflect (x < y) (Rltb x y).
Proof. unfold Rltb. destruct (Rlt_dec x y); constructor; assumption. Qed.

Lemma Reqb_spec (x y : R) : reflect (x = y) (Reqb x y).
Proof. unfold Reqb. destruct (Req_dec_T x y); constructor; assumption. Qed.

(** Decide every real comparison in sight, closing the absurd cases. *)
Ltac Rdecide :=
  repeat match goal with
  | |- context [Rleb ?a ?b] => destruct (Rleb_spec a b); try lra
  | |- context [Rltb ?a ?b] => destruct (Rltb_spec a b); try lra
  | |- context [Reqb ?a ?b] => destruct (Reqb_spec a b); try lra
  | H : context [Rleb ?a ?b] |- _ => destruct (Rleb_spec a b); try lra
  | H : context [Rltb ?a ?b] |- _ => destruct (Rltb_spec a b); try lra
  | H : context [Reqb ?a ?b] |- _ => destruct (Reqb_spec a b); try lra
  end.

(** ** Broadcasting *)

Lemma broadcast_size_same (n : nat) : torch.broadcast_size n n = Some n.
Proof. unfold torch.broadcast_size. now rewrite Nat.eqb_refl. Qed.

Lemma expand_same (t : tensor) : torch.expand (List.length t) t = t.
Proof. destruct t as [|x [|y t]]; reflexivity. Qed.

Lemma binop_same_length {C : Type} (f : scalar -> scalar -> C)
    (a b : tensor) :
  List.length a = List.length b ->
  torch.binop f a b = Ok (torch.zip_with f a b).
Proof.
  intros Hlen. unfold torch.binop.
  rewrite Hlen, broadcast_size_same.
  rewrite <- Hlen at 1. now rewrite !expand_same.
Qed.

Lemma zip_with_length {A B C : Type} (f : A -> B -> C) (xs : list A) :
  forall ys, List.length xs = List.length ys ->
  List.length (torch.zip_with f xs ys) = List.length xs.
Proof.
  induction xs as [|x xs IH]; intros [|y ys] Hlen;
    simpl in *; try discriminate; auto.
Qed.

Lemma zip_with_map {A A' B B' C : Type} (f : A' -> B' -> C)
    (g : A -> A') (h : B -> B') (xs : list A) :
  forall ys,
  torch.zip_with f (map g xs) (map h ys)
  = torch.zip_with (fun x y => f (g x) (h y)) xs ys.
Proof.
  induction xs as [|x xs IH]; intros [|y ys]; simpl; try reflexivity.
  now rewrite IH.
Qed.

Lemma zip_with_nth_error {A B C : Type} (f : A -> B -> C) (xs : list A) :
  forall ys i x y,
  nth_error xs i = Some x -> nth_error ys i = Some y ->
  nth_error (torch.zip_with f xs ys) i = Some (f x y).
Proof.
  induction xs as [|x0 xs IH]; intros [|y0 ys] [|i] x y Hx Hy;
    simpl in *; try discriminate.
  - congruence.
  - eauto.
Qed.

Lemma broadcast_size_one (n : nat) : torch.broadcast_size 1 n = Some n.
Proof.
  unfold torch.broadcast_size.
  destruct (Nat.eqb_spec 1 n) as [->|]; reflexivity.
Qed.

(** Two tensors of one length are left as they are by [broadcast_all]. *)
Lemma broadcast_all_same_length (a b : tensor) :
  List.length a = List.length b ->
  torch.broadcast_all [Some a; Some b] = Ok [a; b].
Proof.
  intros Hlen. unfold torch.broadcast_all, torch.broadcast_tensors.
  cbn [torch.all_tensors map torch.broadcast_shape].
  rewrite broadcast_size_one, <- Hlen, broadcast_size_same.
  rewrite expand_same, Hlen, expand_same. reflexivity.
Qed.

(** ** The constructor's exclusivity check *)

(** C1. Whenever the mu-style and the total_count-style inputs are passed
    together ([mu] and [total_count] both present: in particular [mu], [theta]
    together with [total_count], [logits]) or neither is passed ([mu] and
    [total_count] both absent: in particular no input at all), the NB
    constructor raises ConfigurationError, and so does the ZINB constructor,
    whatever the other arguments are; no instance is returned. *)
Theorem init_exclusive_parameterizations
    (cls : class) (total_count probs logits mu theta zi_logits : option tensor)
    (validate_args : bool) :
  (is_some mu = true /\ is_some total_count = true)
  \/ (is_none mu = true /\ is_none total_count = true) ->
  NB.__init__ cls total_count probs logits mu theta validate_args
    = Raise ConfigurationError
  /\ ZINB.__init__ total_count probs logits mu theta zi_logits validate_args
    = Raise ConfigurationError.
Proof.
  intros Hgiven.
  assert (Hnb : forall c,
    NB.__init__ c total_count probs logits mu theta validate_args
    = Raise ConfigurationError).
  { intros c. unfold NB.__init__.
    destruct mu, total_count; simpl in *;
      solve [reflexivity | intuition discriminate]. }
  split; [apply Hnb|].
  unfold ZINB.__init__. now rewrite Hnb.
Qed.

Lemma init_exclusive_parameterizations_witness :
  NB.__init__ cls_NB (Some [Finite 5]) None (Some [Finite 0])
    (Some [Finite 2]) (Some [Finite 3]) true
    = Raise ConfigurationError
  /\ ZINB.__init__ (Some [Finite 5]) None (Some [Finite 0])
       (Some [Finite 2]) (Some [Finite 3]) (Some [Finite 1]) true
    = Raise ConfigurationError.
Proof.
  apply init_exclusive_parameterizations.
  left. split; reflexivity.
Defined.

(** C9. With [total_count] alone (no [probs], [logits], [mu], [theta]) the
    exclusivity check passes, [using_param_1] is false, and the constructor
    goes on to [broadcast_all(mu, theta)] with both absent: the call fails
    there, with torch's argument error and not with ConfigurationError. *)
Theorem init_total_count_alone
    (cls : class) (total_count zi_logits : tensor) (validate_args : bool) :
  torch.broadcast_all [@None tensor; None] = Raise ArgumentError
  /\ NB.__init__ cls (Some total_count) None None None None validate_args
     = Raise ArgumentError
  /\ NB.__init__ cls (Some total_count) None None None None validate_args
     <> Raise ConfigurationError
  /\ ZINB.__init__ (Some total_count) None None None None (Some zi_logits)
       validate_args
     = Raise ArgumentError.
Proof.
  repeat split; try reflexivity.
  discriminate.
Qed.

(** ** The converters *)

Lemma map_zip_with {A B C D : Type} (h : C -> D) (f : A -> B -> C)
    (xs : list A) :
  forall ys,
  map h (torch.zip_with f xs ys)
  = torch.zip_with (fun x y => h (f x y)) xs ys.
Proof.
  induction xs as [|x xs IH]; intros [|y ys]; simpl; try reflexivity.
  now rewrite IH.
Qed.

Lemma zip_with_zip_with_r {A B C D : Type} (f : C -> B -> D)
    (g : A -> B -> C) (xs : list A) :
  forall ys,
  torch.zip_with f (torch.zip_with g xs ys) ys
  = torch.zip_with (fun x y => f (g x y) y) xs ys.
Proof.
  induction xs as [|x xs IH]; intros [|y ys]; simpl; try reflexivity.
  now rewrite IH.
Qed.

Lemma zip_with_ext_in {A B C : Type} (P : A -> Prop) (Q : B -> Prop)
    (f g : A -> B -> C) :
  (forall x y, P x -> Q y -> f x y = g x y) ->
  forall xs ys, Forall P xs -> Forall Q ys ->
  torch.zip_with f xs ys = torch.zip_with g xs ys.
Proof.
  intros Hfg xs. induction xs as [|x xs IH]; intros [|y ys] HP HQ;
    simpl; try reflexivity.
  inversion HP; inversion HQ; subst.
  rewrite Hfg by assumption. f_equal. now apply IH.
Qed.

(** C4. The converters compute the stated elementwise formulas and nothing
    else (they are functions of their arguments alone):
    [from_nb_params1_to_2] returns [theta = total_count] and
    [mu = exp(logits) * theta]; [from_nb_params2_to_1] returns
    [total_count = theta] and [logits = log(mu + eps) - log(theta + eps)].
    On finite values these are the real-number formulas. *)
Theorem converters_compute_formulas
    (total_count logits mu theta : tensor) (eps : scalar) :
  List.length total_count = List.length logits ->
  List.length mu = List.length theta ->
  from_nb_params1_to_2 total_count logits
    = Ok (torch.zip_with (fun l t => Num.mul (Num.exp l) t)
            logits total_count,
          total_count)
  /\ from_nb_params2_to_1 (Some mu) (Some theta) eps
    = Ok (theta,
          torch.zip_with
            (fun m t => Num.sub (Num.log (Num.add m eps))
                                (Num.log (Num.add t eps)))
            mu theta)
  /\ (forall l t : R,
        Num.mul (Num.exp (Finite l)) (Finite t) = Finite (exp l * t))
  /\ (forall m t e : R, 0 < m + e -> 0 < t + e ->
        Num.sub (Num.log (Num.add (Finite m) (Finite e)))
                (Num.log (Num.add (Finite t) (Finite e)))
        = Finite (ln (m + e) - ln (t + e))).
Proof.
  intros Hlen1 Hlen2. repeat split.
  - unfold from_nb_params1_to_2, torch.mul, torch.exp.
    rewrite binop_same_length by (rewrite length_map; congruence).
    simpl. f_equal. f_equal.
    rewrite <- (map_id total_count) at 1.
    now rewrite zip_with_map.
  - unfold from_nb_params2_to_1, torch.sub, torch.log, torch.add_scalar.
    simpl.
    rewrite binop_same_length by (rewrite !length_map; congruence).
    simpl. f_equal. f_equal.
    now rewrite !map_map, zip_with_map.
  - intros m t e Hm Ht. simpl. Rdecide. reflexivity.
Qed.

Lemma converters_compute_formulas_witness :
  from_nb_params1_to_2 [Finite 4] [Finite 0]
    = Ok (torch.zip_with (fun l t => Num.mul (Num.exp l) t)
            [Finite 0] [Finite 4],
          [Finite 4])
  /\ from_nb_params2_to_1 (Some [Finite 3]) (Some [Finite 4]) (Finite 1e-6)
    = Ok ([Finite 4],
          torch.zip_with
            (fun m t => Num.sub (Num.log (Num.add m (Finite 1e-6)))
                                (Num.log (Num.add t (Finite 1e-6))))
            [Finite 3] [Finite 4]).
Proof.
  split;
    apply (converters_compute_formulas
             [Finite 4] [Finite 0] [Finite 3] [Finite 4] (Finite 1e-6));
    reflexivity.
Defined.

(** *** Finite values *)

Lemma map_Finite_zip_with (f : scalar -> scalar -> scalar)
    (g : R -> R -> R) (xs ys : list R) :
  (forall a b, f (Finite a) (Finite b) = Finite (g a b)) ->
  torch.zip_with f (map Finite xs) (map Finite ys)
  = map Finite (torch.zip_with g xs ys).
Proof.
  intros Hfg. rewrite zip_with_map, map_zip_with.
  apply zip_with_ext_in with (P := fun _ => True) (Q := fun _ => True);
    auto using Forall_forall.
  - apply Forall_forall; auto.
  - apply Forall_forall; auto.
Qed.

(** ** Shapes established by the constructors *)

Lemma broadcast_size_inv (a b m : nat) :
  torch.broadcast_size a b = Some m ->
  (a = m \/ a = 1%nat) /\ (b = m \/ b = 1%nat).
Proof.
  unfold torch.broadcast_size.
  destruct (Nat.eqb_spec a b); [intros [= <-]; subst; auto|].
  destruct (Nat.eqb_spec a 1); [intros [= <-]; auto|].
  destruct (Nat.eqb_spec b 1); [intros [= <-]; auto|].
  discriminate.
Qed.

Lemma broadcast_shape_inv (sizes : list nat) :
  forall acc n,
  torch.broadcast_shape acc sizes = Some n ->
  (acc = n \/ acc = 1%nat)
  /\ Forall (fun l => l = n \/ l = 1%nat) sizes.
Proof.
  induction sizes as [|l sizes IH]; intros acc n Hb; simpl in Hb.
  - injection Hb as <-. auto.
  - destruct (torch.broadcast_size acc l) as [m|] eqn:Em; [|discriminate].
    apply broadcast_size_inv in Em. destruct Em as [Ha Hl].
    destruct (IH _ _ Hb) as [Hm Hrest].
    split; [|constructor; [|assumption]]; intuition congruence.
Qed.

Lemma expand_length (n : nat) (t : tensor) :
  List.length t = n \/ List.length t = 1%nat ->
  List.length (torch.expand n t) = n.
Proof.
  destruct t as [|x [|y t]]; simpl; intros [H|H]; try discriminate; auto;
    now rewrite repeat_length.
Qed.

Lemma broadcast_tensors_length (ts ts' : list tensor) :
  torch.broadcast_tensors ts = Ok ts' ->
  exists n, ts' = map (torch.expand n) ts
            /\ Forall (fun t => List.length t = n) ts'.
Proof.
  unfold torch.broadcast_tensors.
  destruct (torch.broadcast_shape 1 _) as [n|] eqn:Eb; [|discriminate].
  intros [= <-]. exists n. split; [reflexivity|].
  apply broadcast_shape_inv in Eb. destruct Eb as [_ Hall].
  rewrite Forall_map in *.
  eapply Forall_impl; [|exact Hall].
  intros t Ht. now apply expand_length.
Qed.

Lemma unpack2_broadcast_all_length (a b : option tensor) (x y : tensor) :
  unpack2 (torch.broadcast_all [a; b]) = Ok (x, y) ->
  List.length x = List.length y.
Proof.
  unfold torch.broadcast_all.
  destruct a as [a|], b as [b|]; simpl; try discriminate.
  destruct (torch.broadcast_tensors [a; b]) as [ts|e] eqn:Eb;
    [|discriminate].
  apply broadcast_tensors_length in Eb. destruct Eb as [n [-> Hall]].
  simpl. intros [= <- <-].
  inversion Hall as [|? ? H1 Hall']; inversion Hall'; subst. congruence.
Qed.

Lemma unpack3_broadcast_all_length (a b c : option tensor) (x y z : tensor) :
  unpack3 (torch.broadcast_all [a; b; c]) = Ok (x, y, z) ->
  List.length x = List.length y /\ List.length y = List.length z.
Proof.
  unfold torch.broadcast_all.
  destruct a as [a|], b as [b|], c as [c|]; simpl; try discriminate.
  destruct (torch.broadcast_tensors [a; b; c]) as [ts|e] eqn:Eb;
    [|discriminate].
  apply broadcast_tensors_length in Eb. destruct Eb as [n [-> Hall]].
  simpl. intros [= <- <- <-].
  inversion Hall as [|? ? H1 Hall']; inversion Hall' as [|? ? H2 Hall''];
    inversion Hall''; subst. split; congruence.
Qed.

Lemma from_nb_params1_to_2_length (total_count logits mu theta : tensor) :
  List.length total_count = List.length logits ->
  from_nb_params1_to_2 total_count logits = Ok (mu, theta) ->
  List.length mu = List.length theta.
Proof.
  intros Hlen. unfold from_nb_params1_to_2, torch.mul, torch.exp.
  rewrite binop_same_length by (rewrite length_map; congruence).
  simpl. intros [= <- <-].
  rewrite zip_with_length; rewrite length_map; congruence.
Qed.

(** The validation run by [Distribution.__init__] inside [NB.__init__]: at
    that point the instance stores [mu] and [theta] only, so for either class
    exactly these two are checked (the zero-inflation attributes of ZINB are
    lazy properties not stored yet, and are skipped). *)
Lemma Distribution_init_at_construction (cls : class) (m t : tensor)
    (e : scalar) (v : bool) :
  torch.Distribution_init (arg_constraints cls)
    (__dict__ {| klass := cls; mu := m; theta := t; _eps := e;
                 _validate_args := v;
                 zi_logits_slot := None; zi_probs_slot := None |})
    (is_lazy_property cls) v
  = if v && negb (check_all (greater_than_eq 0) m
                  && check_all (greater_than_eq 0) t)
    then Raise DomainError else Ok tt.
Proof.
  unfold torch.Distribution_init.
  destruct v; [|reflexivity].
  unfold check_all.
  destruct cls; cbn;
    destruct (forallb (check1 (greater_than_eq 0)) m);
    destruct (forallb (check1 (greater_than_eq 0)) t); reflexivity.
Qed.

(** What a successful [NB.__init__] returns: the class and flag it was given,
    the fixed [_eps], no zero-inflation attribute, parameters of one shape,
    and, under validation, parameters that passed their constraints. *)
Lemma NB_init_Ok (cls : class)
    (total_count probs logits mu0 theta0 : option tensor)
    (validate_args : bool) (self : instance) :
  NB.__init__ cls total_count probs logits mu0 theta0 validate_args = Ok self ->
  klass self = cls
  /\ _eps self = Finite 1e-8
  /\ _validate_args self = validate_args
  /\ zi_logits_slot self = None
  /\ zi_probs_slot self = None
  /\ same_shape self
  /\ (validate_args = true ->
      check_all (greater_than_eq 0) (mu self) = true
      /\ check_all (greater_than_eq 0) (theta self) = true).
Proof.
  unfold NB.__init__.
  destruct (Bool.eqb (is_none mu0) (is_none total_count)); [discriminate|].
  match goal with
  | |- bind ?c _ = _ -> _ => destruct c as [[m t]|e] eqn:Eparams
  end; [|discriminate].
  assert (Hshape : List.length m = List.length t).
  { destruct (is_some total_count && (is_some logits || is_some probs)).
    - match type of Eparams with
      | bind ?c _ = _ => destruct c as [lg|e]; [|discriminate]
      end.
      cbn [bind] in Eparams.
      destruct (type_as total_count lg) as [tc0|e]; [|discriminate].
      cbn [bind] in Eparams.
      destruct (unpack2 (torch.broadcast_all [Some tc0; Some lg]))
        as [[tc lg']|e] eqn:Eb; [|discriminate].
      cbn [bind] in Eparams.
      apply unpack2_broadcast_all_length in Eb.
      eapply from_nb_params1_to_2_length; eassumption.
    - eapply unpack2_broadcast_all_length; eassumption. }
  cbn [bind].
  match goal with
  | |- bind ?c _ = _ -> _ => destruct c as [[]|e] eqn:Evalid
  end; [|discriminate].
  cbn [bind]. intros [= <-]. unfold same_shape.
  cbn [klass mu theta _eps _validate_args zi_logits_slot zi_probs_slot].
  rewrite Distribution_init_at_construction in Evalid.
  repeat split; try assumption; subst validate_args;
    cbn [andb] in Evalid; cbn [mu theta];
    destruct (check_all (greater_than_eq 0) m);
    destruct (check_all (greater_than_eq 0) t);
    solve [reflexivity | discriminate].
Qed.

(** ** Exactly when the configuration error is raised *)

Lemma unpack2_broadcast_all_no_configuration_error (a b : option tensor) :
  unpack2 (torch.broadcast_all [a; b]) <> Raise ConfigurationError.
Proof.
  unfold torch.broadcast_all, torch.broadcast_tensors.
  destruct a as [a|], b as [b|]; cbn; try discriminate.
  destruct (torch.broadcast_size 1 (List.length a)) as [n|];
    [|discriminate].
  destruct (torch.broadcast_size n (List.length b)); discriminate.
Qed.

(** No later step of the constructor raises ConfigurationError: it is raised
    exactly when [mu] and [total_count] are both present or both absent. *)
Lemma NB_init_configuration_error_iff (cls : class)
    (total_count probs logits mu0 theta0 : option tensor)
    (validate_args : bool) :
  NB.__init__ cls total_count probs logits mu0 theta0 validate_args
    = Raise ConfigurationError
  <-> is_none mu0 = is_none total_count.
Proof.
  unfold NB.__init__.
  destruct (Bool.eqb (is_none mu0) (is_none total_count)) eqn:E.
  - apply Bool.eqb_prop in E. tauto.
  - apply Bool.eqb_false_iff in E. split; [|tauto]. intros Hr. exfalso.
    match type of Hr with
    | bind ?c _ = _ => destruct c as [[m t]|e] eqn:Eparams
    end.
    + cbn [bind] in Hr. rewrite Distribution_init_at_construction in Hr.
      destruct (validate_args && _); discriminate.
    + cbn [bind] in Hr. injection Hr as ->.
      destruct (is_some total_count && (is_some logits || is_some probs)).
      * unfold torch.probs_to_logits in Eparams.
        destruct logits as [lg|]; [|destruct probs as [p|]];
          cbn [bind] in Eparams; try discriminate;
          destruct total_count as [tc|]; cbn [bind type_as] in Eparams;
          try discriminate.
        all: match type of Eparams with
             | bind (unpack2 (torch.broadcast_all [?a; ?b])) _ = _ =>
                 pose proof (unpack2_broadcast_all_no_configuration_error a b)
                   as Hb;
                 destruct (unpack2 (torch.broadcast_all [a; b]))
                   as [[tc' lg']|e]; cbn [bind] in Eparams;
                 [|congruence]
             end.
        all: unfold from_nb_params1_to_2, torch.mul, torch.binop in Eparams.
        all: destruct (torch.broadcast_size _ _); discriminate.
      * now apply (unpack2_broadcast_all_no_configuration_error mu0 theta0).
Qed.

(** ** Validation of observed values *)

Lemma frac_part_IZR (k : Z) : frac_part (IZR k) = 0.
Proof.
  destruct (Int_part_frac_part_spec (IZR k) k 0) as [_ Hf]; lra.
Qed.

(** The support test accepts exactly the non-negative integers. *)
Lemma check1_support_iff (x : scalar) :
  check1 support x = true <-> integer_valued x /\ ~ negative x.
Proof.
  unfold support, integer_valued, negative.
  destruct x as [r| | |]; cbn.
  - rewrite andb_true_iff. split.
    + intros [Hfrac Hle]. Rdecide. split; [|discriminate].
      destruct (fp_nat r) as [k Hk]; [assumption|]. exists k. now subst.
    + intros [[k [= ->]] Hneg]. rewrite frac_part_IZR.
      destruct (Rltb_spec (IZR k) 0); [now elim Hneg|].
      Rdecide.
  - split; [discriminate|]. intros [[k Hk] _]. discriminate.
  - split; [discriminate|]. intros [[k Hk] _]. discriminate.
  - split; [discriminate|]. intros [[k Hk] _]. discriminate.
Qed.

Lemma validate_sample_accepts (value : tensor) :
  Forall (fun x => ~ negative x /\ integer_valued x) value ->
  torch.validate_sample support value = Ok tt.
Proof.
  intros Hall. unfold torch.validate_sample, check_all.
  replace (forallb (check1 support) value) with true; [reflexivity|].
  symmetry. apply forallb_forall. intros x Hx.
  rewrite Forall_forall in Hall. apply check1_support_iff.
  destruct (Hall x Hx). auto.
Qed.

Lemma validate_sample_rejects (value : tensor) :
  Exists (fun x => negative x \/ ~ integer_valued x) value ->
  torch.validate_sample support value = Raise DomainError.
Proof.
  intros Hex. unfold torch.validate_sample, check_all.
  replace (forallb (check1 support) value) with false; [reflexivity|].
  symmetry. apply not_true_is_false. intros Hall.
  rewrite forallb_forall in Hall. apply Exists_exists in Hex.
  destruct Hex as [x [Hx Hbad]].
  apply Hall, check1_support_iff in Hx. tauto.
Qed.

(** C6. On an NB instance built with validation, [log_prob] raises
    DomainError when some observed value is negative or not an integer, and
    otherwise returns [log_nb_positive(value, mu, theta, eps)] with
    [eps = 1e-8]; on an instance built without validation the kernel result
    is returned for any value. *)
Theorem NB_log_prob_validation {K : Kernels} (cls : class)
    (total_count probs logits mu0 theta0 : option tensor)
    (validate_args : bool) (self : instance) (value : tensor) :
  NB.__init__ cls total_count probs logits mu0 theta0 validate_args
    = Ok self ->
  (validate_args = true ->
     (Exists (fun x => negative x \/ ~ integer_valued x) value ->
      NB.log_prob self value = Raise DomainError)
     /\ (Forall (fun x => ~ negative x /\ integer_valued x) value ->
         NB.log_prob self value
         = Ok (log_nb_positive value (mu self) (theta self) (Finite 1e-8))))
  /\ (validate_args = false ->
      NB.log_prob self value
      = Ok (log_nb_positive value (mu self) (theta self) (Finite 1e-8))).
Proof.
  intros Hinit. apply NB_init_Ok in Hinit.
  destruct Hinit as (_ & Heps & Hflag & _).
  unfold NB.log_prob. rewrite Heps, Hflag.
  split; intros ->; [split; intros Hvalue|].
  - now rewrite validate_sample_rejects.
  - now rewrite validate_sample_accepts.
  - reflexivity.
Qed.

(** A concrete NB instance, as the constructor builds it. *)
Lemma NB_init_example (validate_args : bool) :
  NB.__init__ cls_NB None None None (Some [Finite 2]) (Some [Finite 1])
    validate_args
  = Ok {| klass := cls_NB; mu := [Finite 2]; theta := [Finite 1];
          _eps := Finite 1e-8; _validate_args := validate_args;
          zi_logits_slot := None; zi_probs_slot := None |}.
Proof.
  unfold NB.__init__. cbn [is_none is_some Bool.eqb negb andb orb].
  rewrite broadcast_all_same_length by reflexivity. cbn [unpack2 bind].
  rewrite Distribution_init_at_construction.
  destruct validate_args; cbn; Rdecide; reflexivity.
Qed.

Lemma NB_log_prob_validation_witness :
  @NB.log_prob echo_kernels
    {| klass := cls_NB; mu := [Finite 2]; theta := [Finite 1];
       _eps := Finite 1e-8; _validate_args := true;
       zi_logits_slot := None; zi_probs_slot := None |}
    [Finite (-1)]
  = Raise DomainError
  /\ @NB.log_prob echo_kernels
       {| klass := cls_NB; mu := [Finite 2]; theta := [Finite 1];
          _eps := Finite 1e-8; _validate_args := true;
          zi_logits_slot := None; zi_probs_slot := None |}
       [Finite 3]
     = Ok [Finite 3]
  /\ @NB.log_prob echo_kernels
       {| klass := cls_NB; mu := [Finite 2]; theta := [Finite 1];
          _eps := Finite 1e-8; _validate_args := false;
          zi_logits_slot := None; zi_probs_slot := None |}
       [Finite (-1)]
     = Ok [Finite (-1)].
Proof.
  split; [|split].
  - destruct (NB_log_prob_validation (K := echo_kernels) cls_NB
                None None None (Some [Finite 2]) (Some [Finite 1]) true _
                [Finite (-1)] (NB_init_example true)) as [Hon _].
    destruct (Hon eq_refl) as [Hreject _]. apply Hreject.
    constructor. left. unfold negative. cbn. Rdecide; try reflexivity.
  - destruct (NB_log_prob_validation (K := echo_kernels) cls_NB
                None None None (Some [Finite 2]) (Some [Finite 1]) true _
                [Finite 3] (NB_init_example true)) as [Hon _].
    destruct (Hon eq_refl) as [_ Haccept]. apply Haccept.
    constructor; [|constructor]. split.
    + unfold negative. cbn. Rdecide; try discriminate.
    + exists 3%Z. reflexivity.
  - destruct (NB_log_prob_validation (K := echo_kernels) cls_NB
                None None None (Some [Finite 2]) (Some [Finite 1]) false _
                [Finite (-1)] (NB_init_example false)) as [_ Hoff].
    apply Hoff. reflexivity.
Defined.

(** ** Validation of the parameters at construction *)

(** The constructor is its normalization followed by the check of [mu] and
    [theta], for either class. *)
Lemma NB_init_decompose (cls : class)
    (total_count probs logits mu0 theta0 : option tensor)
    (validate_args : bool) :
  NB.__init__ cls total_count probs logits mu0 theta0 validate_args
  = bind (normalized_parameters total_count probs logits mu0 theta0)
      (fun mt =>
         if validate_args
            && negb (check_all (greater_than_eq 0) (fst mt)
                     && check_all (greater_than_eq 0) (snd mt))
         then Raise DomainError
         else Ok {| klass := cls; mu := fst mt; theta := snd mt;
                    _eps := Finite 1e-8; _validate_args := validate_args;
                    zi_logits_slot := None; zi_probs_slot := None |}).
Proof.
  unfold normalized_parameters, NB.__init__.
  destruct (Bool.eqb (is_none mu0) (is_none total_count)); [reflexivity|].
  match goal with
  | |- bind ?c _ = _ => destruct c as [[m t]|e]; [|reflexivity]
  end.
  cbn [bind]. rewrite !Distribution_init_at_construction.
  cbn [andb bind mu theta fst snd].
  destruct (validate_args &&
            negb (check_all (greater_than_eq 0) m
                  && check_all (greater_than_eq 0) t)); reflexivity.
Qed.

Lemma negative_fails_greater_than_eq (x : scalar) :
  negative x -> check1 (greater_than_eq 0) x = false.
Proof.
  unfold negative. destruct x as [r| | |]; cbn; try discriminate.
  - intros Hneg. Rdecide; try discriminate; reflexivity.
  - reflexivity.
Qed.

Lemma Exists_negative_fails (t : tensor) :
  Exists negative t -> check_all (greater_than_eq 0) t = false.
Proof.
  induction 1 as [x t Hx | x t _ IH]; unfold check_all in *; cbn [forallb].
  - now rewrite negative_fails_greater_than_eq.
  - rewrite IH. apply andb_false_r.
Qed.

(** C8 (amended). With validation enabled, a constructor call whose
    normalized [mu] or [theta] has a negative element raises DomainError, for
    NB and for ZINB alike: the error is raised by the constructor and no
    instance is returned. *)
Theorem init_rejects_negative_parameters (cls : class)
    (total_count probs logits mu0 theta0 zi_logits : option tensor)
    (m t : tensor) :
  normalized_parameters total_count probs logits mu0 theta0 = Ok (m, t) ->
  Exists negative m \/ Exists negative t ->
  NB.__init__ cls total_count probs logits mu0 theta0 true
    = Raise DomainError
  /\ ZINB.__init__ total_count probs logits mu0 theta0 zi_logits true
    = Raise DomainError.
Proof.
  intros Hnorm Hneg.
  assert (Hnb : forall c,
    NB.__init__ c total_count probs logits mu0 theta0 true
    = Raise DomainError).
  { intros c. rewrite NB_init_decompose, Hnorm. cbn [bind fst snd andb].
    destruct Hneg as [Hneg|Hneg]; apply Exists_negative_fails in Hneg;
      rewrite Hneg; [|rewrite andb_false_r]; reflexivity. }
  split; [apply Hnb|].
  unfold ZINB.__init__. now rewrite Hnb.
Qed.

Lemma normalized_parameters_example (m t : scalar) :
  normalized_parameters None None None (Some [m]) (Some [t])
  = Ok ([m], [t]).
Proof.
  unfold normalized_parameters, NB.__init__.
  cbn [is_none is_some Bool.eqb negb andb orb].
  rewrite broadcast_all_same_length by reflexivity. reflexivity.
Qed.

Lemma init_rejects_negative_parameters_witness :
  NB.__init__ cls_NB None None None (Some [Finite (-1)]) (Some [Finite 1])
    true
    = Raise DomainError
  /\ ZINB.__init__ None None None (Some [Finite (-1)]) (Some [Finite 1])
       (Some [Finite 0]) true
    = Raise DomainError.
Proof.
  apply (init_rejects_negative_parameters cls_NB None None None
           (Some [Finite (-1)]) (Some [Finite 1]) (Some [Finite 0])
           [Finite (-1)] [Finite 1]).
  - apply normalized_parameters_example.
  - left. constructor. unfold negative. cbn. Rdecide; try reflexivity.
Defined.

(** A ZINB instance with one element, as the constructor builds it. *)
Lemma ZINB_init_example (zl : scalar) (validate_args : bool) :
  ZINB.__init__ None None None (Some [Finite 2]) (Some [Finite 1])
    (Some [zl]) validate_args
  = Ok {| klass := cls_ZINB; mu := [Finite 2]; theta := [Finite 1];
          _eps := Finite 1e-8; _validate_args := validate_args;
          zi_logits_slot := Some [zl]; zi_probs_slot := None |}.
Proof.
  unfold ZINB.__init__.
  rewrite NB_init_decompose, normalized_parameters_example.
  cbn [bind fst snd].
  replace (check_all (greater_than_eq 0) [Finite 2]) with true
    by (cbn; Rdecide; reflexivity).
  replace (check_all (greater_than_eq 0) [Finite 1]) with true
    by (cbn; Rdecide; reflexivity).
  rewrite andb_false_r. reflexivity.
Qed.

(** C8 as stated fails on the zero-inflation probability: with validation
    enabled, [zi_logits = +inf] gives the zero-inflation probability 1,
    which is outside [[0, 1)], and the constructor returns the instance
    instead of raising DomainError. *)
Lemma init_accepts_unit_zero_inflation :
  ZINB.__init__ None None None (Some [Finite 2]) (Some [Finite 1])
    (Some [PosInf]) true
  = Ok {| klass := cls_ZINB; mu := [Finite 2]; theta := [Finite 1];
          _eps := Finite 1e-8; _validate_args := true;
          zi_logits_slot := Some [PosInf]; zi_probs_slot := None |}
  /\ ZINB.zi_probs
       {| klass := cls_ZINB; mu := [Finite 2]; theta := [Finite 1];
          _eps := Finite 1e-8; _validate_args := true;
          zi_logits_slot := Some [PosInf]; zi_probs_slot := None |}
     = Ok ([Finite 1],
           {| klass := cls_ZINB; mu := [Finite 2]; theta := [Finite 1];
              _eps := Finite 1e-8; _validate_args := true;
              zi_logits_slot := Some [PosInf];
              zi_probs_slot := Some [Finite 1] |})
  /\ Num.leb (Finite 1) (Finite 1) = true
  /\ check_all (half_open_interval 0 1) [Finite 1] = false.
Proof.
  split; [apply ZINB_init_example|].
  split; [reflexivity|].
  split; cbn; Rdecide; reflexivity.
Qed.

(** ** Sampling *)

Lemma clamp_max_is_min (hi : R) (x : scalar) :
  Num.clamp_max (Finite hi) x = Num.min x (Finite hi).
Proof.
  destruct x as [a| | |]; cbn; try reflexivity.
  unfold Num.clamp_max, Rmin. cbn.
  destruct (Rltb_spec hi a), (Rle_dec a hi);
    try reflexivity; try lra; f_equal; lra.
Qed.

Lemma draw_each_length {RS : RandomSource} {A : Type}
    (f : A -> rng -> scalar * rng) (xs : list A) :
  forall s, List.length (fst (torch.draw_each f xs s)) = List.length xs.
Proof.
  induction xs as [|x xs IH]; intros s; cbn; [reflexivity|].
  destruct (f x s) as [v s1]. specialize (IH s1).
  destruct (torch.draw_each f xs s1) as [vs s2]. cbn in *. now rewrite IH.
Qed.

Lemma Gamma_init_same_length (c r : tensor) :
  List.length c = List.length r ->
  torch.Gamma_init c r = Ok {| torch.concentration := c; torch.rate := r |}.
Proof.
  intros Hlen. unfold torch.Gamma_init.
  now rewrite broadcast_all_same_length.
Qed.

(** On an instance whose parameters have one shape, [_gamma] builds
    Gamma(concentration = theta, rate = theta / mu), elementwise. *)
Lemma gamma_of_same_shape (self : instance) :
  same_shape self ->
  NB._gamma self
  = Ok {| torch.concentration := theta self;
          torch.rate := torch.zip_with Num.div (theta self) (mu self) |}.
Proof.
  unfold same_shape. intros Hshape. unfold NB._gamma, torch.div.
  rewrite binop_same_length by congruence. cbn [bind].
  apply Gamma_init_same_length.
  rewrite zip_with_length; congruence.
Qed.

(** [sample] on an instance whose parameters have one shape. *)
Lemma NB_sample_of_same_shape {RS : RandomSource}
    (self : instance) (s : rng) :
  same_shape self ->
  NB.sample self s
  = Ok (torch.Poisson_sample
          (torch.Poisson_init
             (torch.clamp_max
                (fst (torch.Gamma_sample
                        {| torch.concentration := theta self;
                           torch.rate :=
                             torch.zip_with Num.div (theta self) (mu self) |}
                        s))
                (Finite 1e8)))
          (snd (torch.Gamma_sample
                  {| torch.concentration := theta self;
                     torch.rate :=
                       torch.zip_with Num.div (theta self) (mu self) |}
                  s))).
Proof.
  intros Hshape. unfold NB.sample.
  rewrite gamma_of_same_shape by assumption. cbn [bind].
  destruct (torch.Gamma_sample _ s) as [p_means s1]. cbn [fst snd].
  destruct (torch.Poisson_sample _ s1) as [counts s2]. reflexivity.
Qed.

(** C2. [sample] draws the latent rates from
    Gamma(concentration = theta, rate = theta / mu), and the counts it
    returns are the Poisson draws whose rate is, element by element, the
    minimum of the Gamma draw and 1e8. *)
Theorem NB_sample_gamma_poisson {RS : RandomSource}
    (self : instance) (s : rng) :
  same_shape self ->
  exists gamma_d : torch.Gamma,
    NB._gamma self = Ok gamma_d
    /\ torch.concentration gamma_d = theta self
    /\ torch.rate gamma_d = torch.zip_with Num.div (theta self) (mu self)
    /\ NB.sample self s
       = Ok (torch.Poisson_sample
               (torch.Poisson_init
                  (map (fun g => Num.min g (Finite 1e8))
                     (fst (torch.Gamma_sample gamma_d s))))
               (snd (torch.Gamma_sample gamma_d s))).
Proof.
  intros Hshape. eexists. split; [now apply gamma_of_same_shape|].
  split; [reflexivity|]. split; [reflexivity|].
  rewrite NB_sample_of_same_shape by assumption.
  unfold torch.clamp_max.
  now rewrite (map_ext _ _ (clamp_max_is_min 1e8)).
Qed.

Lemma NB_sample_gamma_poisson_witness :
  exists gamma_d : torch.Gamma,
    NB._gamma
      {| klass := cls_NB; mu := [Finite 2]; theta := [Finite 1];
         _eps := Finite 1e-8; _validate_args := true;
         zi_logits_slot := None; zi_probs_slot := None |}
    = Ok gamma_d
    /\ torch.concentration gamma_d = [Finite 1]
    /\ torch.rate gamma_d
       = torch.zip_with Num.div [Finite 1] [Finite 2]
    /\ @NB.sample counting_source
         {| klass := cls_NB; mu := [Finite 2]; theta := [Finite 1];
            _eps := Finite 1e-8; _validate_args := true;
            zi_logits_slot := None; zi_probs_slot := None |} 0%nat
       = Ok (@torch.Poisson_sample counting_source
               (torch.Poisson_init
                  (map (fun g => Num.min g (Finite 1e8))
                     (fst (@torch.Gamma_sample counting_source gamma_d
                             0%nat))))
               (snd (@torch.Gamma_sample counting_source gamma_d 0%nat))).
Proof.
  apply (@NB_sample_gamma_poisson counting_source
           {| klass := cls_NB; mu := [Finite 2]; theta := [Finite 1];
              _eps := Finite 1e-8; _validate_args := true;
              zi_logits_slot := None; zi_probs_slot := None |} 0%nat).
  reflexivity.
Defined.

(** *** Zero inflation *)

(** What a successful [ZINB.__init__] returns. *)
Lemma ZINB_init_Ok
    (total_count probs logits mu0 theta0 zi_logits : option tensor)
    (validate_args : bool) (self : instance) :
  ZINB.__init__ total_count probs logits mu0 theta0 zi_logits validate_args
    = Ok self ->
  klass self = cls_ZINB
  /\ _validate_args self = validate_args
  /\ zi_probs_slot self = None
  /\ zinb_shape self
  /\ exists zl n, zi_logits = Some zl
                  /\ zi_logits_slot self = Some (torch.expand n zl).
Proof.
  unfold ZINB.__init__.
  destruct (NB.__init__ cls_ZINB _ _ _ _ _ _) as [nb|e] eqn:Enb;
    [|discriminate].
  apply NB_init_Ok in Enb.
  destruct Enb as (Hk & _ & Hflag & _ & Hprobs & _ & _).
  cbn [bind]. destruct nb as [k m t e v zl zp]. cbn in Hk, Hflag, Hprobs.
  subst.
  destruct (unpack3 (torch.broadcast_all [zi_logits; Some m; Some t]))
    as [[[zl' m'] t']|e'] eqn:Eb; [|discriminate].
  cbn [bind klass _eps _validate_args zi_probs_slot]. intros [= <-].
  pose proof (unpack3_broadcast_all_length _ _ _ _ _ _ Eb) as [H1 H2].
  unfold zinb_shape, same_shape. cbn.
  repeat split; try assumption.
  - exists zl'. repeat split; [assumption|discriminate].
  - unfold torch.broadcast_all in Eb.
    destruct zi_logits as [zl0|]; [|discriminate]. cbn in Eb.
    destruct (torch.broadcast_tensors [zl0; m; t]) as [ts|] eqn:Ets;
      [|discriminate].
    apply broadcast_tensors_length in Ets. destruct Ets as [n [-> _]].
    cbn in Eb. injection Eb as <- _ _. eauto.
Qed.

Lemma ltb_not_leb (p u : scalar) :
  Num.ltb p u = true -> Num.leb u p = false.
Proof.
  destruct p as [a| | |], u as [b| | |]; cbn; try discriminate;
    try reflexivity.
  intros H. Rdecide; try discriminate; reflexivity.
Qed.

Lemma zi_probs_of_shape (self : instance) :
  zinb_shape self ->
  exists p, ZINB.zi_probs self
            = Ok (p, match zi_probs_slot self with
                     | Some _ => self
                     | None => set_zi_probs self p
                     end)
            /\ List.length p = List.length (mu self).
Proof.
  intros [_ [l [Hl [Hlen Hcache]]]]. unfold ZINB.zi_probs.
  destruct (zi_probs_slot self) as [p|] eqn:Ep.
  - exists p. split; [reflexivity|]. rewrite (Hcache p eq_refl). exact Hlen.
  - rewrite Hl. eexists. split; [reflexivity|].
    unfold torch.logits_to_probs, torch.sigmoid. now rewrite length_map.
Qed.

(** The shape invariant survives the caching of [zi_probs]. *)
Lemma zi_probs_preserves_shape (self self' : instance) (p : tensor) :
  zinb_shape self ->
  ZINB.zi_probs self = Ok (p, self') ->
  zinb_shape self'.
Proof.
  intros Hshape Hget. pose proof Hshape as [Hsame [l [Hl [Hlen Hcache]]]].
  unfold ZINB.zi_probs in Hget.
  destruct (zi_probs_slot self) as [p0|] eqn:Ep.
  - injection Hget as <- <-. exact Hshape.
  - rewrite Hl in Hget. injection Hget as <- <-.
    split; [exact Hsame|]. exists l. cbn.
    repeat split; try assumption.
    intros p [= <-].
    unfold torch.logits_to_probs, torch.sigmoid. now rewrite length_map.
Qed.

Lemma NB_sample_length {RS : RandomSource} (self : instance) (s : rng) :
  same_shape self ->
  exists samp s1, NB.sample self s = Ok (samp, s1)
                  /\ List.length samp = List.length (mu self).
Proof.
  intros Hshape. rewrite NB_sample_of_same_shape by assumption.
  unfold torch.Poisson_sample, torch.Poisson_init.
  cbn [torch.Poisson_rate].
  match goal with
  | |- context [torch.draw_each poisson_draw ?xs ?s0] =>
      pose proof (draw_each_length poisson_draw xs s0) as Hlen;
      destruct (torch.draw_each poisson_draw xs s0) as [samp s1]
  end.
  exists samp, s1. split; [reflexivity|].
  cbn [fst] in Hlen. rewrite Hlen. unfold torch.clamp_max.
  rewrite length_map.
  unfold torch.Gamma_sample. rewrite draw_each_length, length_combine.
  cbn [torch.concentration torch.rate].
  rewrite zip_with_length by (symmetry; exact Hshape).
  unfold same_shape in Hshape. lia.
Qed.

(** C3. [ZINB.sample] returns, for each element, zero when the uniform
    draw of that element is [<=] its [zi_probs], and the base NB draw
    unchanged when the uniform draw is greater. *)
Theorem ZINB_sample_zero_inflation {RS : RandomSource}
    (self : instance) (s : rng) :
  zinb_shape self ->
  exists (samp u p out : tensor) (s1 s2 : rng) (self' : instance),
    NB.sample self s = Ok (samp, s1)
    /\ torch.rand_like samp s1 = (u, s2)
    /\ ZINB.zi_probs self = Ok (p, self')
    /\ ZINB.sample self s = Ok (out, self', s2)
    /\ List.length u = List.length samp
    /\ List.length p = List.length samp
    /\ List.length out = List.length samp
    /\ forall i s_i u_i p_i,
         nth_error samp i = Some s_i ->
         nth_error u i = Some u_i ->
         nth_error p i = Some p_i ->
         nth_error out i
           = Some (if Num.leb u_i p_i then Finite 0 else s_i)
         /\ (Num.leb u_i p_i = true -> nth_error out i = Some (Finite 0))
         /\ (Num.ltb p_i u_i = true -> nth_error out i = Some s_i).
Proof.
  intros Hshape. pose proof Hshape as [Hsame _].
  destruct (NB_sample_length self s Hsame) as (samp & s1 & Hsamp & Hlen).
  destruct (zi_probs_of_shape self Hshape) as (p & Hp & Hplen).
  destruct (torch.rand_like samp s1) as [u s2] eqn:Eu.
  assert (Hulen : List.length u = List.length samp).
  { pose proof (draw_each_length (fun _ : scalar => uniform_draw) samp s1)
      as Hd. unfold torch.rand_like in Eu. rewrite Eu in Hd. exact Hd. }
  exists samp, u, p,
    (torch.zip_with (fun x (m : bool) => if m then Finite 0 else x) samp
       (torch.zip_with Num.leb u p)), s1, s2.
  eexists. split; [exact Hsamp|]. split; [exact Eu|].
  split; [exact Hp|].
  assert (Hmask : List.length (torch.zip_with Num.leb u p)
                  = List.length samp).
  { rewrite zip_with_length; congruence. }
  split; [|split; [exact Hulen|split; [congruence|split]]].
  - unfold ZINB.sample. rewrite Hsamp. cbn [bind]. rewrite Eu. rewrite Hp.
    cbn [bind]. unfold torch.le.
    rewrite binop_same_length by congruence. cbn [bind].
    unfold torch.masked_fill. rewrite Hmask, Nat.eqb_refl. reflexivity.
  - rewrite zip_with_length; congruence.
  - intros i s_i u_i p_i Hs Hu Hpi.
    pose proof (zip_with_nth_error Num.leb _ _ _ _ _ Hu Hpi) as Hm.
    rewrite (zip_with_nth_error _ _ _ _ _ _ Hs Hm).
    split; [reflexivity|]. split.
    + now intros ->.
    + intros Hlt. now rewrite (ltb_not_leb _ _ Hlt).
Qed.

Lemma example_ZINB_shape : zinb_shape example_ZINB.
Proof.
  split; [reflexivity|].
  exists [Finite 0; Finite 0]. repeat split. discriminate.
Qed.

Lemma ZINB_sample_zero_inflation_witness :
  exists (samp u p out : tensor) (s1 s2 : nat) (self' : instance),
    @NB.sample counting_source example_ZINB 0%nat = Ok (samp, s1)
    /\ @torch.rand_like counting_source samp s1 = (u, s2)
    /\ ZINB.zi_probs example_ZINB = Ok (p, self')
    /\ @ZINB.sample counting_source example_ZINB 0%nat
       = Ok (out, self', s2)
    /\ List.length u = List.length samp
    /\ List.length p = List.length samp
    /\ List.length out = List.length samp
    /\ forall i s_i u_i p_i,
         nth_error samp i = Some s_i ->
         nth_error u i = Some u_i ->
         nth_error p i = Some p_i ->
         nth_error out i
           = Some (if Num.leb u_i p_i then Finite 0 else s_i)
         /\ (Num.leb u_i p_i = true -> nth_error out i = Some (Finite 0))
         /\ (Num.ltb p_i u_i = true -> nth_error out i = Some s_i).
Proof.
  apply (@ZINB_sample_zero_inflation counting_source example_ZINB 0%nat).
  exact example_ZINB_shape.
Defined.

Lemma sigmoid_0 : Num.sigmoid (Finite 0) = Finite (1 / 2).
Proof.
  cbn. rewrite Ropp_0, exp_0. f_equal. lra.
Qed.

(** A run on the example: the base draws are [1; 1], the uniform draws
    [1/4; 3/4] and [zi_probs] is [1/2; 1/2], so the first count is zeroed and
    the second one kept; [zi_probs] is stored on the instance. *)
Example ZINB_sample_run :
  @NB.sample counting_source example_ZINB 0%nat
    = Ok ([Finite 1; Finite 1], 4%nat)
  /\ @ZINB.sample counting_source example_ZINB 0%nat
    = Ok ([Finite 0; Finite 1],
          set_zi_probs example_ZINB [Finite (1 / 2); Finite (1 / 2)],
          6%nat).
Proof.
  assert (Hnb : @NB.sample counting_source example_ZINB 0%nat
                = Ok ([Finite 1; Finite 1], 4%nat)).
  { unfold NB.sample. rewrite gamma_of_same_shape by reflexivity.
    cbn. Rdecide. reflexivity. }
  split; [exact Hnb|].
  unfold ZINB.sample. rewrite Hnb. cbn [bind].
  unfold ZINB.zi_probs, torch.logits_to_probs, torch.sigmoid.
  cbn [example_ZINB zi_probs_slot zi_logits_slot map bind].
  rewrite sigmoid_0. cbn. Rdecide. reflexivity.
Qed.

(** ** The lazy zero-inflation attributes *)

(** Every ZINB constructor call that leaves [zi_logits] out raises. *)
Lemma ZINB_init_requires_zi_logits
    (total_count probs logits mu0 theta0 : option tensor)
    (validate_args : bool) :
  exists e,
    ZINB.__init__ total_count probs logits mu0 theta0 None validate_args
    = Raise e.
Proof.
  unfold ZINB.__init__.
  destruct (NB.__init__ cls_ZINB _ _ _ _ _ _) as [[k m t e v zl zp]|e];
    cbn; eauto.
Qed.

(** C7 as stated fails: the ZINB constructor has no [zi_probs] parameter and
    cannot do without [zi_logits].  A call with valid [mu] and [theta] that
    leaves [zi_logits] out (as a caller who means to give [zi_probs] instead
    must) raises torch's argument error; so does, with some error, every
    call without [zi_logits]. *)
Lemma ZINB_init_without_zi_logits :
  ZINB.__init__ None None None (Some [Finite 2]) (Some [Finite 1]) None true
    = Raise ArgumentError
  /\ (forall (total_count probs logits mu0 theta0 : option tensor)
             (validate_args : bool) (self : instance),
        ZINB.__init__ total_count probs logits mu0 theta0 None validate_args
        <> Ok self).
Proof.
  split.
  - unfold ZINB.__init__.
    rewrite NB_init_decompose, normalized_parameters_example.
    cbn [bind fst snd].
    replace (check_all (greater_than_eq 0) [Finite 2]) with true
      by (cbn; Rdecide; reflexivity).
    replace (check_all (greater_than_eq 0) [Finite 1]) with true
      by (cbn; Rdecide; reflexivity).
    reflexivity.
  - intros tc p l m0 t0 v self Hok.
    destruct (ZINB_init_requires_zi_logits tc p l m0 t0 v) as [e He].
    congruence.
Qed.

(** C7 (amended). A ZINB instance is built from [zi_logits], which is stored
    (broadcast) on the instance, while [zi_probs] is not computed by the
    constructor.  The first access to [zi_probs] computes
    [logits_to_probs(zi_logits)] and stores it; from then on an access returns
    the stored tensor and leaves the instance as it is, whatever [zi_logits]
    has become: the value is computed at most once. *)
Theorem zi_probs_lazy_cached
    (total_count probs logits mu0 theta0 zi_logits : option tensor)
    (validate_args : bool) (self : instance) :
  ZINB.__init__ total_count probs logits mu0 theta0 zi_logits validate_args
    = Ok self ->
  exists zl : tensor,
    zi_logits <> None
    /\ zi_logits_slot self = Some zl
    /\ zi_probs_slot self = None
    /\ ZINB.zi_logits self = Ok (zl, self)
    /\ ZINB.zi_probs self
       = Ok (torch.logits_to_probs zl,
             set_zi_probs self (torch.logits_to_probs zl))
    /\ ZINB.zi_probs (set_zi_probs self (torch.logits_to_probs zl))
       = Ok (torch.logits_to_probs zl,
             set_zi_probs self (torch.logits_to_probs zl))
    /\ forall zl' : tensor,
         ZINB.zi_probs
           (set_zi_logits (set_zi_probs self (torch.logits_to_probs zl)) zl')
         = Ok (torch.logits_to_probs zl,
               set_zi_logits
                 (set_zi_probs self (torch.logits_to_probs zl)) zl').
Proof.
  intros Hinit. apply ZINB_init_Ok in Hinit.
  destruct Hinit as (_ & _ & Hprobs & _ & (zl0 & n & -> & Hlogits)).
  exists (torch.expand n zl0).
  unfold ZINB.zi_logits, ZINB.zi_probs. rewrite Hlogits, Hprobs.
  repeat split; try reflexivity. discriminate.
Qed.

Lemma zi_probs_lazy_cached_witness :
  exists zl : tensor,
    Some [Finite 0] <> None
    /\ zi_logits_slot
         {| klass := cls_ZINB; mu := [Finite 2]; theta := [Finite 1];
            _eps := Finite 1e-8; _validate_args := true;
            zi_logits_slot := Some [Finite 0]; zi_probs_slot := None |}
       = Some zl
    /\ ZINB.zi_probs
         {| klass := cls_ZINB; mu := [Finite 2]; theta := [Finite 1];
            _eps := Finite 1e-8; _validate_args := true;
            zi_logits_slot := Some [Finite 0]; zi_probs_slot := None |}
       = Ok (torch.logits_to_probs zl,
             set_zi_probs
               {| klass := cls_ZINB; mu := [Finite 2]; theta := [Finite 1];
                  _eps := Finite 1e-8; _validate_args := true;
                  zi_logits_slot := Some [Finite 0];
                  zi_probs_slot := None |}
               (torch.logits_to_probs zl)).
Proof.
  destruct (zi_probs_lazy_cached None None None (Some [Finite 2])
              (Some [Finite 1]) (Some [Finite 0]) true _
              (ZINB_init_example (Finite 0) true))
    as (zl & Hgiven & Hslot & _ & _ & Hfirst & _).
  exists zl. repeat split; assumption.
Defined.

(** ** The division in [_gamma] *)

Lemma checked_div_defined_iff (t m : scalar) :
  check1 (greater_than_eq 0) m = true ->
  (Num.checked_div t m <> None <-> positive m).
Proof.
  unfold positive, Num.checked_div.
  destruct m as [r| | |]; cbn; try discriminate.
  - intros Hge. destruct (Reqb_spec r 0) as [->|Hr].
    + split; [congruence|]. Rdecide; discriminate.
    + split; [|discriminate]. intros _. Rdecide; reflexivity.
  - intros _. split; [reflexivity|discriminate].
Qed.

(** C10. The Gamma rate is exactly [theta / mu], with no epsilon: at an
    element where [mu = 0], which the constraint [mu >= 0] accepts, the
    division takes its division-by-zero branch.  Among the values of [mu]
    the constructor accepts, the division avoids that branch exactly when
    [mu > 0].  The zero case is reached by an instance the validating
    constructor returns. *)
Theorem gamma_rate_unguarded_division
    (self : instance) (i : nat) (m t : scalar) :
  same_shape self ->
  nth_error (mu self) i = Some m ->
  nth_error (theta self) i = Some t ->
  (exists g, NB._gamma self = Ok g
             /\ nth_error (torch.rate g) i = Some (Num.div t m))
  /\ (check1 (greater_than_eq 0) m = true ->
      (Num.checked_div t m <> None <-> positive m))
  /\ (m = Finite 0 ->
      check1 (greater_than_eq 0) m = true
      /\ Num.checked_div t m = None
      /\ Num.div t m = Num.div_by_zero t)
  /\ (exists self0,
        NB.__init__ cls_NB None None None
          (Some [Finite 0]) (Some [Finite 1]) true = Ok self0
        /\ NB._gamma self0
           = Ok {| torch.concentration := [Finite 1];
                   torch.rate := [PosInf] |}).
Proof.
  intros Hshape Hm Ht. split; [|split; [|split]].
  - eexists. split; [now apply gamma_of_same_shape|].
    cbn [torch.rate]. now apply zip_with_nth_error.
  - apply checked_div_defined_iff.
  - intros ->. unfold Num.div, Num.checked_div. cbn.
    Rdecide; repeat split; reflexivity.
  - eexists. split.
    + unfold NB.__init__. cbn [is_none is_some Bool.eqb negb andb orb].
      rewrite broadcast_all_same_length by reflexivity. cbn [unpack2 bind].
      rewrite Distribution_init_at_construction.
      replace (check_all (greater_than_eq 0) [Finite 0]) with true
        by (cbn; Rdecide; reflexivity).
      replace (check_all (greater_than_eq 0) [Finite 1]) with true
        by (cbn; Rdecide; reflexivity).
      reflexivity.
    + rewrite gamma_of_same_shape by reflexivity.
      cbn. unfold Num.div, Num.checked_div, Num.div_by_zero, Num.signed.
      cbn. Rdecide; reflexivity.
Qed.

Lemma gamma_rate_unguarded_division_witness :
  (exists g,
     NB._gamma
       {| klass := cls_NB; mu := [Finite 0]; theta := [Finite 1];
          _eps := Finite 1e-8; _validate_args := true;
          zi_logits_slot := None; zi_probs_slot := None |} = Ok g
     /\ nth_error (torch.rate g) 0
        = Some (Num.div (Finite 1) (Finite 0)))
  /\ check1 (greater_than_eq 0) (Finite 0) = true
  /\ Num.checked_div (Finite 1) (Finite 0) = None.
Proof.
  destruct (gamma_rate_unguarded_division
              {| klass := cls_NB; mu := [Finite 0]; theta := [Finite 1];
                 _eps := Finite 1e-8; _validate_args := true;
                 zi_logits_slot := None; zi_probs_slot := None |}
              0 (Finite 0) (Finite 1) eq_refl eq_refl eq_refl)
    as (Hrate & _ & Hzero & _).
  destruct (Hzero eq_refl) as (Hacc & Hnone & _).
  repeat split; assumption.
Defined.

(** * Further properties of the module *)

(** ** Which arguments the constructor looks at *)

(** X2. The constructor silently ignores the arguments of the branch it does
    not take: with [total_count] and [logits] passed, [theta] and [probs] are
    never looked at; with [mu] passed, [probs] and [logits] are never looked
    at; and [mu] without [theta] fails in [broadcast_all] with torch's
    argument error. *)
Theorem init_ignores_unused_arguments (cls : class)
    (total_count logits mu0 : tensor) (probs logits0 theta0 : option tensor)
    (validate_args : bool) :
  NB.__init__ cls (Some total_count) probs (Some logits) None theta0
    validate_args
  = NB.__init__ cls (Some total_count) None (Some logits) None None
      validate_args
  /\ NB.__init__ cls None probs logits0 (Some mu0) theta0 validate_args
     = NB.__init__ cls None None None (Some mu0) theta0 validate_args
  /\ NB.__init__ cls None probs logits0 (Some mu0) None validate_args
     = Raise ArgumentError.
Proof.
  repeat split; destruct probs, theta0; reflexivity.
Qed.

(** ** Construction from (total_count, logits) and from (total_count, probs) *)

Lemma normalized_parameters_from_logits
    (total_count logits : tensor) (probs theta0 : option tensor) :
  List.length total_count = List.length logits ->
  normalized_parameters (Some total_count) probs (Some logits) None theta0
  = Ok (torch.zip_with (fun l t => Num.mul (Num.exp l) t) logits total_count,
        total_count).
Proof.
  intros Hlen. unfold normalized_parameters, NB.__init__.
  cbn [is_none is_some Bool.eqb negb andb orb bind type_as].
  rewrite broadcast_all_same_length by assumption. cbn [unpack2 bind].
  unfold from_nb_params1_to_2, torch.mul, torch.exp.
  rewrite binop_same_length by (rewrite length_map; congruence).
  cbn [bind torch.Distribution_init mu theta].
  rewrite <- (map_id total_count) at 1. now rewrite zip_with_map.
Qed.

Lemma exp_mul_nonnegative (logits total_count : list R) :
  Forall (fun t => 0 <= t) total_count ->
  check_all (greater_than_eq 0)
    (map Finite (torch.zip_with (fun l t => exp l * t) logits total_count))
  = true.
Proof.
  intros Hpos. revert logits.
  induction Hpos as [|t ts Ht _ IH]; intros [|l ls]; try reflexivity.
  cbn [torch.zip_with map check_all forallb]. unfold check_all in IH.
  rewrite IH, andb_true_r. cbn.
  pose proof (exp_pos l). destruct (Rleb_spec 0 (exp l * t)); [reflexivity|].
  exfalso. nra.
Qed.

Lemma nonnegative_reals_pass (ts : list R) :
  Forall (fun t => 0 <= t) ts ->
  check_all (greater_than_eq 0) (map Finite ts) = true.
Proof.
  induction 1 as [|t ts Ht _ IH]; [reflexivity|].
  cbn [map check_all forallb]. unfold check_all in IH.
  rewrite IH, andb_true_r. cbn. Rdecide; reflexivity.
Qed.

Lemma NB_init_from_logits_reals (cls : class)
    (total_count logits : list R) (probs theta0 : option tensor)
    (validate_args : bool) :
  List.length total_count = List.length logits ->
  Forall (fun t => 0 <= t) total_count ->
  NB.__init__ cls (Some (map Finite total_count)) probs
    (Some (map Finite logits)) None theta0 validate_args
  = Ok {| klass := cls;
          mu := map Finite
                  (torch.zip_with (fun l t => exp l * t) logits total_count);
          theta := map Finite total_count;
          _eps := Finite 1e-8; _validate_args := validate_args;
          zi_logits_slot := None; zi_probs_slot := None |}.
Proof.
  intros Hlen Hpos.
  rewrite NB_init_decompose, normalized_parameters_from_logits
    by (rewrite !length_map; assumption).
  cbn [bind fst snd].
  rewrite (map_Finite_zip_with (fun l t => Num.mul (Num.exp l) t)
             (fun l t => exp l * t)) by reflexivity.
  rewrite exp_mul_nonnegative, nonnegative_reals_pass by assumption.
  now rewrite andb_false_r.
Qed.

Lemma finfo_eps_bounds : 0 < torch.finfo_eps < 1 / 2.
Proof.
  unfold torch.finfo_eps. split.
  - apply Rinv_0_lt_compat. lra.
  - apply (Rmult_lt_reg_r (2 ^ 23)); [lra|].
    rewrite Rinv_l by lra. lra.
Qed.

(** Probabilities inside the clamping interval: [probs_to_logits] in its
    default (non-binary) mode returns their logarithm. *)
Lemma probs_to_logits_default (probs : list R) :
  Forall (fun p => torch.finfo_eps <= p <= 1 - torch.finfo_eps) probs ->
  torch.probs_to_logits (map Finite probs) false
  = Ok (map Finite (map ln probs)).
Proof.
  intros Hp. unfold torch.probs_to_logits, torch.clamp_probs, torch.clamp,
    torch.log.
  f_equal. rewrite !map_map. apply map_ext_in. intros p Hin.
  rewrite Forall_forall in Hp. specialize (Hp p Hin).
  pose proof finfo_eps_bounds.
  unfold Num.clamp_max, Num.clamp_min. cbn.
  destruct (Rltb_spec p torch.finfo_eps); [lra|]. cbn.
  destruct (Rltb_spec (1 - torch.finfo_eps) p); [lra|]. cbn.
  destruct (Rltb_spec 0 p); [reflexivity|lra].
Qed.

(** X4. Built from [total_count] and [probs] (no [logits]), the instance has
    [mu = probs * total_count]: the constructor turns [probs] into logits
    with [probs_to_logits] in its default mode, which takes the logarithm of
    the (clamped) probabilities, not their log-odds. *)
Theorem init_from_total_count_and_probs (cls : class)
    (total_count probs : list R) (theta0 : option tensor)
    (validate_args : bool) :
  List.length total_count = List.length probs ->
  Forall (fun t => 0 <= t) total_count ->
  Forall (fun p => torch.finfo_eps <= p <= 1 - torch.finfo_eps) probs ->
  NB.__init__ cls (Some (map Finite total_count))
    (Some (map Finite probs)) None None theta0 validate_args
  = Ok {| klass := cls;
          mu := map Finite
                  (torch.zip_with (fun p t => p * t) probs total_count);
          theta := map Finite total_count;
          _eps := Finite 1e-8; _validate_args := validate_args;
          zi_logits_slot := None; zi_probs_slot := None |}.
Proof.
  intros Hlen Hpos Hp.
  assert (Hsame :
    NB.__init__ cls (Some (map Finite total_count))
      (Some (map Finite probs)) None None theta0 validate_args
    = NB.__init__ cls (Some (map Finite total_count)) None
        (Some (map Finite (map ln probs))) None theta0 validate_args).
  { unfold NB.__init__.
    cbn [is_none is_some Bool.eqb negb andb orb].
    now rewrite probs_to_logits_default. }
  rewrite Hsame, NB_init_from_logits_reals
    by (rewrite ?length_map; assumption).
  f_equal. f_equal. f_equal.
  rewrite <- (map_id total_count) at 1. rewrite zip_with_map.
  apply zip_with_ext_in
    with (P := fun p => torch.finfo_eps <= p <= 1 - torch.finfo_eps)
         (Q := fun _ => True); try assumption.
  - intros p t Hp0 _. pose proof finfo_eps_bounds.
    rewrite exp_ln by lra. reflexivity.
  - apply Forall_forall. auto.
Qed.

Lemma init_from_total_count_and_probs_witness :
  NB.__init__ cls_NB (Some (map Finite [4])) (Some (map Finite [1 / 2]))
    None None None true
  = Ok {| klass := cls_NB;
          mu := map Finite (torch.zip_with (fun p t => p * t) [1 / 2] [4]);
          theta := map Finite [4];
          _eps := Finite 1e-8; _validate_args := true;
          zi_logits_slot := None; zi_probs_slot := None |}.
Proof.
  apply (init_from_total_count_and_probs cls_NB [4] [1 / 2] None true).
  - reflexivity.
  - repeat constructor; lra.
  - pose proof finfo_eps_bounds. repeat constructor; lra.
Defined.

(** ** Invariants of constructed instances *)

Lemma unpack3_broadcast_all_inv (a : option tensor) (b c x y z : tensor) :
  unpack3 (torch.broadcast_all [a; Some b; Some c]) = Ok (x, y, z) ->
  exists a0 n,
    a = Some a0
    /\ x = torch.expand n a0 /\ y = torch.expand n b /\ z = torch.expand n c
    /\ List.length x = n /\ List.length y = n /\ List.length z = n.
Proof.
  unfold torch.broadcast_all.
  destruct a as [a0|]; cbn [torch.all_tensors]; [|discriminate].
  destruct (torch.broadcast_tensors [a0; b; c]) as [ts|e] eqn:Eb;
    [|discriminate].
  apply broadcast_tensors_length in Eb. destruct Eb as [n [-> Hall]].
  cbn [map unpack3] in *. intros [= <- <- <-].
  rewrite !Forall_cons_iff in Hall. destruct Hall as (H1 & H2 & H3 & _).
  exists a0, n. repeat split; assumption.
Qed.

(** A successful [ZINB.__init__] is a successful [NB.__init__] for the ZINB
    class followed by the broadcast of the three tensors to one shape. *)
Lemma ZINB_init_Ok_inv
    (total_count probs logits mu0 theta0 zi_logits : option tensor)
    (validate_args : bool) (self : instance) :
  ZINB.__init__ total_count probs logits mu0 theta0 zi_logits validate_args
    = Ok self ->
  exists (m t zl : tensor) (n : nat),
    NB.__init__ cls_ZINB total_count probs logits mu0 theta0 validate_args
    = Ok {| klass := cls_ZINB; mu := m; theta := t;
            _eps := Finite 1e-8; _validate_args := validate_args;
            zi_logits_slot := None; zi_probs_slot := None |}
    /\ zi_logits = Some zl
    /\ self = {| klass := cls_ZINB;
                 mu := torch.expand n m; theta := torch.expand n t;
                 _eps := Finite 1e-8; _validate_args := validate_args;
                 zi_logits_slot := Some (torch.expand n zl);
                 zi_probs_slot := None |}
    /\ List.length (torch.expand n m) = n
    /\ List.length (torch.expand n t) = n
    /\ List.length (torch.expand n zl) = n.
Proof.
  unfold ZINB.__init__.
  destruct (NB.__init__ cls_ZINB _ _ _ _ _ _) as [nb|e] eqn:Enb;
    [|discriminate].
  pose proof (NB_init_Ok _ _ _ _ _ _ _ _ Enb)
    as (Hk & He & Hflag & Hl & Hp & _).
  destruct nb as [k m t e v zl zp].
  cbn [klass _eps _validate_args zi_logits_slot zi_probs_slot] in *. subst.
  cbn [bind].
  destruct (unpack3 _) as [[[zl' m'] t']|e'] eqn:Eb; [|discriminate].
  cbn [bind klass _eps _validate_args zi_probs_slot]. intros [= <-].
  apply unpack3_broadcast_all_inv in Eb.
  destruct Eb as (zl0 & n & -> & -> & -> & -> & H1 & H2 & H3).
  exists m, t, zl0, n. repeat split; assumption.
Qed.

Lemma expand_Forall (P : scalar -> Prop) (n : nat) (t : tensor) :
  Forall P t -> Forall P (torch.expand n t).
Proof.
  intros Hall. destruct t as [|x [|y t]]; cbn; try assumption.
  inversion Hall; subst. apply Forall_forall.
  intros z Hz. apply repeat_spec in Hz. now subst.
Qed.

Lemma check_all_Forall (c : constraint) (t : tensor) :
  check_all c t = true <-> Forall (fun x => check1 c x = true) t.
Proof.
  unfold check_all. rewrite forallb_forall, Forall_forall. reflexivity.
Qed.

(** X5. Shape invariant: an instance returned by [NB.__init__] has [mu] and
    [theta] of one shape, and an instance returned by [ZINB.__init__] has
    [zi_logits], [mu] and [theta] of one shape, whatever shapes were passed. *)
Theorem constructors_establish_one_shape (cls : class)
    (total_count probs logits mu0 theta0 zi_logits : option tensor)
    (validate_args : bool) (self : instance) :
  (NB.__init__ cls total_count probs logits mu0 theta0 validate_args
     = Ok self ->
   List.length (mu self) = List.length (theta self))
  /\ (ZINB.__init__ total_count probs logits mu0 theta0 zi_logits
        validate_args = Ok self ->
      exists zl, zi_logits_slot self = Some zl
                 /\ List.length zl = List.length (mu self)
                 /\ List.length (mu self) = List.length (theta self)).
Proof.
  split; intros Hinit.
  - now apply NB_init_Ok in Hinit.
  - apply ZINB_init_Ok_inv in Hinit.
    destruct Hinit as (m & t & zl & n & _ & _ & -> & H1 & H2 & H3).
    eexists. cbn. repeat split; congruence.
Qed.

(** X6. Parameter invariant: on an instance built with validation, by either
    constructor, every element of [mu] and of [theta] passes [>= 0] (so it is
    neither negative nor NaN); for ZINB this survives the final broadcast. *)
Theorem validated_parameters_are_nonnegative (cls : class)
    (total_count probs logits mu0 theta0 zi_logits : option tensor)
    (self : instance) :
  NB.__init__ cls total_count probs logits mu0 theta0 true = Ok self
  \/ ZINB.__init__ total_count probs logits mu0 theta0 zi_logits true
     = Ok self ->
  Forall (fun x => Num.leb (Finite 0) x = true /\ ~ negative x /\ x <> NaN)
    (mu self ++ theta self).
Proof.
  assert (Hge : forall x, check1 (greater_than_eq 0) x = true ->
            Num.leb (Finite 0) x = true /\ ~ negative x /\ x <> NaN).
  { intros x Hx. split; [exact Hx|]. split.
    - intros Hneg. apply negative_fails_greater_than_eq in Hneg. congruence.
    - intros ->. discriminate. }
  assert (Hnb : forall c d,
            NB.__init__ c total_count probs logits mu0 theta0 true = Ok d ->
            Forall (fun x => check1 (greater_than_eq 0) x = true) (mu d)
            /\ Forall (fun x => check1 (greater_than_eq 0) x = true)
                 (theta d)).
  { intros c d Hd. apply NB_init_Ok in Hd.
    destruct Hd as (_ & _ & _ & _ & _ & _ & Hvalid).
    destruct (Hvalid eq_refl). now rewrite <- !check_all_Forall. }
  intros [Hinit|Hinit].
  - destruct (Hnb _ _ Hinit) as [Hm Ht].
    apply Forall_app. split; (eapply Forall_impl; [exact Hge|assumption]).
  - apply ZINB_init_Ok_inv in Hinit.
    destruct Hinit as (m & t & zl & n & Hinit & _ & -> & _).
    destruct (Hnb _ _ Hinit) as [Hm Ht]. cbn [mu theta] in *.
    apply Forall_app.
    split; apply expand_Forall;
      (eapply Forall_impl; [exact Hge|assumption]).
Qed.

Lemma validated_parameters_are_nonnegative_witness :
  Forall (fun x => Num.leb (Finite 0) x = true /\ ~ negative x /\ x <> NaN)
    ([Finite 2] ++ [Finite 1]).
Proof.
  apply (validated_parameters_are_nonnegative cls_NB None None None
           (Some [Finite 2]) (Some [Finite 1]) None
           {| klass := cls_NB; mu := [Finite 2]; theta := [Finite 1];
              _eps := Finite 1e-8; _validate_args := true;
              zi_logits_slot := None; zi_probs_slot := None |}).
  left. apply NB_init_example.
Defined.

Lemma constructors_establish_one_shape_witness :
  List.length [Finite 2] = List.length [Finite 1]
  /\ exists zl, Some [Finite 0] = Some zl
                /\ List.length zl = List.length [Finite 2]
                /\ List.length [Finite 2] = List.length [Finite 1].
Proof.
  split.
  - apply (constructors_establish_one_shape cls_NB None None None
             (Some [Finite 2]) (Some [Finite 1]) None true
             {| klass := cls_NB; mu := [Finite 2]; theta := [Finite 1];
                _eps := Finite 1e-8; _validate_args := true;
                zi_logits_slot := None; zi_probs_slot := None |}).
    apply NB_init_example.
  - apply (constructors_establish_one_shape cls_ZINB None None None
             (Some [Finite 2]) (Some [Finite 1]) (Some [Finite 0]) true
             {| klass := cls_ZINB; mu := [Finite 2]; theta := [Finite 1];
                _eps := Finite 1e-8; _validate_args := true;
                zi_logits_slot := Some [Finite 0]; zi_probs_slot := None |}).
    apply ZINB_init_example.
Defined.

(** ** What validation changes *)

(** X7. Validation only filters: a call that succeeds with validation
    succeeds without it and returns the same parameters; a call that succeeds
    without validation and whose [mu] and [theta] pass [>= 0] succeeds with it;
    and a call that fails with validation fails either with DomainError or
    with the very error it raises without validation. *)
Theorem validation_only_filters (cls : class)
    (total_count probs logits mu0 theta0 : option tensor)
    (m t : tensor) (e : error) :
  (NB.__init__ cls total_count probs logits mu0 theta0 true
     = Ok {| klass := cls; mu := m; theta := t; _eps := Finite 1e-8;
             _validate_args := true;
             zi_logits_slot := None; zi_probs_slot := None |} ->
   NB.__init__ cls total_count probs logits mu0 theta0 false
     = Ok {| klass := cls; mu := m; theta := t; _eps := Finite 1e-8;
             _validate_args := false;
             zi_logits_slot := None; zi_probs_slot := None |})
  /\ (NB.__init__ cls total_count probs logits mu0 theta0 false
        = Ok {| klass := cls; mu := m; theta := t; _eps := Finite 1e-8;
                _validate_args := false;
                zi_logits_slot := None; zi_probs_slot := None |} ->
      check_all (greater_than_eq 0) m = true ->
      check_all (greater_than_eq 0) t = true ->
      NB.__init__ cls total_count probs logits mu0 theta0 true
        = Ok {| klass := cls; mu := m; theta := t; _eps := Finite 1e-8;
                _validate_args := true;
                zi_logits_slot := None; zi_probs_slot := None |})
  /\ (NB.__init__ cls total_count probs logits mu0 theta0 true = Raise e ->
      e = DomainError
      \/ NB.__init__ cls total_count probs logits mu0 theta0 false
         = Raise e).
Proof.
  rewrite !NB_init_decompose.
  destruct (normalized_parameters _ _ _ _ _) as [[m' t']|e'];
    cbn [bind fst snd andb].
  - repeat split.
    + destruct (negb _); [discriminate|]. now intros [= -> ->].
    + intros [= -> ->] Hm Ht. now rewrite Hm, Ht.
    + destruct (negb _); [|discriminate]. intros [= <-]. now left.
  - repeat split; try discriminate. intros [= <-]. now right.
Qed.

Lemma validation_only_filters_witness :
  NB.__init__ cls_NB None None None (Some [Finite 2]) (Some [Finite 1]) false
  = Ok {| klass := cls_NB; mu := [Finite 2]; theta := [Finite 1];
          _eps := Finite 1e-8; _validate_args := false;
          zi_logits_slot := None; zi_probs_slot := None |}.
Proof.
  apply (validation_only_filters cls_NB None None None
           (Some [Finite 2]) (Some [Finite 1]) [Finite 2] [Finite 1]
           DomainError).
  apply NB_init_example.
Defined.

(** X8. The ZINB constructor never looks at the values of [zi_logits]: if a
    call succeeds, the call with any other [zi_logits] of the same shape
    (NaN or infinite entries included, validation on or off) succeeds too and
    returns the same instance but for the stored [zi_logits]. *)
Theorem zinb_init_ignores_zi_logits_values
    (total_count probs logits mu0 theta0 : option tensor)
    (zl zl' : tensor) (validate_args : bool) (self : instance) :
  ZINB.__init__ total_count probs logits mu0 theta0 (Some zl) validate_args
    = Ok self ->
  List.length zl' = List.length zl ->
  exists n,
    zi_logits_slot self = Some (torch.expand n zl)
    /\ ZINB.__init__ total_count probs logits mu0 theta0 (Some zl')
         validate_args
       = Ok (set_zi_logits self (torch.expand n zl')).
Proof.
  intros Hinit Hlen. unfold ZINB.__init__ in *.
  destruct (NB.__init__ cls_ZINB _ _ _ _ _ _) as [[k m t e v l p]|e];
    [|discriminate].
  cbn [bind] in *.
  unfold torch.broadcast_all, torch.broadcast_tensors in *.
  cbn [torch.all_tensors map] in *. rewrite Hlen.
  destruct (torch.broadcast_shape 1 _) as [n|]; [|discriminate].
  cbn in *. injection Hinit as <-. exists n. split; reflexivity.
Qed.

Lemma zinb_init_ignores_zi_logits_values_witness :
  exists n,
    Some [Finite 0] = Some (torch.expand n [Finite 0])
    /\ ZINB.__init__ None None None (Some [Finite 2]) (Some [Finite 1])
         (Some [NaN]) true
       = Ok (set_zi_logits
               {| klass := cls_ZINB; mu := [Finite 2]; theta := [Finite 1];
                  _eps := Finite 1e-8; _validate_args := true;
                  zi_logits_slot := Some [Finite 0];
                  zi_probs_slot := None |}
               (torch.expand n [NaN])).
Proof.
  apply (zinb_init_ignores_zi_logits_values None None None
           (Some [Finite 2]) (Some [Finite 1]) [Finite 0] [NaN] true
           {| klass := cls_ZINB; mu := [Finite 2]; theta := [Finite 1];
              _eps := Finite 1e-8; _validate_args := true;
              zi_logits_slot := Some [Finite 0]; zi_probs_slot := None |}).
  - apply ZINB_init_example.
  - reflexivity.
Defined.

(** ** Broadcasting in the constructors *)

Lemma broadcast_size_one_r (n : nat) : torch.broadcast_size n 1 = Some n.
Proof.
  unfold torch.broadcast_size.
  destruct (Nat.eqb_spec n 1) as [->|]; reflexivity.
Qed.

Lemma broadcast_size_mismatch (a b : nat) :
  a <> 1%nat -> b <> 1%nat -> a <> b -> torch.broadcast_size a b = None.
Proof.
  intros Ha Hb Hab. unfold torch.broadcast_size.
  destruct (Nat.eqb_spec a b); [contradiction|].
  destruct (Nat.eqb_spec a 1); [contradiction|].
  destruct (Nat.eqb_spec b 1); [contradiction|]. reflexivity.
Qed.

(** X9. Shapes that cannot be broadcast make the constructor fail with
    torch's shape error before any validation: [mu] and [theta] (or
    [total_count] and [logits]) of different sizes, neither of size 1, raise
    ShapeError whatever their values and whatever [validate_args] is. *)
Theorem init_rejects_incompatible_shapes (cls : class) (a b : tensor)
    (probs theta0 : option tensor) (validate_args : bool) :
  List.length a <> 1%nat ->
  List.length b <> 1%nat ->
  List.length a <> List.length b ->
  NB.__init__ cls None None None (Some a) (Some b) validate_args
    = Raise ShapeError
  /\ NB.__init__ cls (Some a) probs (Some b) None theta0 validate_args
     = Raise ShapeError.
Proof.
  intros Ha Hb Hab.
  assert (Hbc : torch.broadcast_all [Some a; Some b] = Raise ShapeError).
  { unfold torch.broadcast_all, torch.broadcast_tensors.
    cbn [torch.all_tensors map torch.broadcast_shape].
    now rewrite broadcast_size_one, broadcast_size_mismatch. }
  split; unfold NB.__init__;
    cbn [is_none is_some Bool.eqb negb andb orb bind type_as];
    now rewrite Hbc.
Qed.

Lemma init_rejects_incompatible_shapes_witness :
  NB.__init__ cls_NB None None None
    (Some [Finite (-1); Finite 1]) (Some [Finite 1; Finite 1; Finite 1]) true
    = Raise ShapeError
  /\ NB.__init__ cls_NB (Some [Finite (-1); Finite 1]) None
       (Some [Finite 1; Finite 1; Finite 1]) None None true
     = Raise ShapeError.
Proof.
  apply (init_rejects_incompatible_shapes cls_NB
           [Finite (-1); Finite 1] [Finite 1; Finite 1; Finite 1]
           None None true); cbn; lia.
Defined.

(** X10. How [ZINB.__init__] broadcasts once the NB part has produced [mu]
    and [theta]: scalar (size-1) [mu] and [theta] are repeated to the shape
    of [zi_logits]; a size-1 [zi_logits] is repeated to the shape of [mu],
    which is left as it is with [theta]; any other disagreement of shapes
    raises ShapeError. *)
Theorem zinb_init_broadcasts
    (total_count probs logits mu0 theta0 : option tensor)
    (validate_args : bool) (m t zl : tensor) :
  NB.__init__ cls_ZINB total_count probs logits mu0 theta0 validate_args
    = Ok {| klass := cls_ZINB; mu := m; theta := t; _eps := Finite 1e-8;
            _validate_args := validate_args;
            zi_logits_slot := None; zi_probs_slot := None |} ->
  (forall x y, m = [x] -> t = [y] ->
     ZINB.__init__ total_count probs logits mu0 theta0 (Some zl)
       validate_args
     = Ok {| klass := cls_ZINB;
             mu := repeat x (List.length zl);
             theta := repeat y (List.length zl);
             _eps := Finite 1e-8; _validate_args := validate_args;
             zi_logits_slot := Some zl; zi_probs_slot := None |})
  /\ (forall z, zl = [z] ->
        ZINB.__init__ total_count probs logits mu0 theta0 (Some zl)
          validate_args
        = Ok {| klass := cls_ZINB; mu := m; theta := t;
                _eps := Finite 1e-8; _validate_args := validate_args;
                zi_logits_slot := Some (repeat z (List.length m));
                zi_probs_slot := None |})
  /\ (List.length zl <> 1%nat -> List.length m <> 1%nat ->
      List.length zl <> List.length m ->
      ZINB.__init__ total_count probs logits mu0 theta0 (Some zl)
        validate_args
      = Raise ShapeError).
Proof.
  intros Hnb. pose proof (NB_init_Ok _ _ _ _ _ _ _ _ Hnb) as Hok.
  destruct Hok as (_ & _ & _ & _ & _ & Hshape & _).
  unfold same_shape in Hshape. cbn [mu theta] in Hshape.
  unfold ZINB.__init__. rewrite Hnb. cbn [bind].
  unfold torch.broadcast_all, torch.broadcast_tensors.
  cbn [torch.all_tensors map torch.broadcast_shape].
  rewrite broadcast_size_one. repeat split.
  - intros x y -> ->. cbn [List.length].
    rewrite broadcast_size_one_r. cbn [torch.broadcast_shape].
    rewrite broadcast_size_one_r. cbn [unpack3 bind torch.expand].
    now rewrite expand_same.
  - intros z ->. cbn [List.length].
    rewrite broadcast_size_one. cbn [torch.broadcast_shape].
    rewrite <- Hshape, broadcast_size_same.
    cbn [unpack3 bind torch.expand klass _eps _validate_args zi_probs_slot].
    rewrite expand_same. rewrite Hshape. now rewrite expand_same.
  - intros Hzl Hm Hne. now rewrite broadcast_size_mismatch.
Qed.

Lemma NB_init_example_for (cls : class) (validate_args : bool) :
  NB.__init__ cls None None None (Some [Finite 2]) (Some [Finite 1])
    validate_args
  = Ok {| klass := cls; mu := [Finite 2]; theta := [Finite 1];
          _eps := Finite 1e-8; _validate_args := validate_args;
          zi_logits_slot := None; zi_probs_slot := None |}.
Proof.
  rewrite NB_init_decompose, normalized_parameters_example.
  cbn [bind fst snd].
  replace (check_all (greater_than_eq 0) [Finite 2]) with true
    by (cbn; Rdecide; reflexivity).
  replace (check_all (greater_than_eq 0) [Finite 1]) with true
    by (cbn; Rdecide; reflexivity).
  now rewrite andb_false_r.
Qed.

Lemma zinb_init_broadcasts_witness :
  ZINB.__init__ None None None (Some [Finite 2]) (Some [Finite 1])
    (Some [Finite 0; NaN; PosInf]) true
  = Ok {| klass := cls_ZINB;
          mu := repeat (Finite 2) 3;
          theta := repeat (Finite 1) 3;
          _eps := Finite 1e-8; _validate_args := true;
          zi_logits_slot := Some [Finite 0; NaN; PosInf];
          zi_probs_slot := None |}.
Proof.
  destruct (zinb_init_broadcasts None None None
              (Some [Finite 2]) (Some [Finite 1]) true
              [Finite 2] [Finite 1] [Finite 0; NaN; PosInf]
              (NB_init_example_for cls_ZINB true)) as [Hscalar _].
  exact (Hscalar (Finite 2) (Finite 1) eq_refl eq_refl).
Defined.

(** ** Sampling from constructed instances *)

(** [ZINB.sample] on a well-shaped instance, step by step. *)
Lemma ZINB_sample_of_shape {RS : RandomSource} (self : instance) (s : rng) :
  zinb_shape self ->
  exists (samp p : tensor) (s1 : rng) (self' : instance),
    NB.sample self s = Ok (samp, s1)
    /\ ZINB.zi_probs self = Ok (p, self')
    /\ List.length samp = List.length (mu self)
    /\ List.length p = List.length (mu self)
    /\ List.length (fst (torch.rand_like samp s1)) = List.length samp
    /\ ZINB.sample self s
       = Ok (torch.zip_with (fun x (b : bool) => if b then Finite 0 else x)
               samp
               (torch.zip_with Num.leb (fst (torch.rand_like samp s1)) p),
             self', snd (torch.rand_like samp s1)).
Proof.
  intros Hshape. pose proof Hshape as [Hsame _].
  destruct (NB_sample_length self s Hsame) as (samp & s1 & Hsamp & Hlen).
  destruct (zi_probs_of_shape self Hshape) as (p & Hp & Hplen).
  pose proof (draw_each_length (fun _ : scalar => uniform_draw) samp s1)
    as Hulen.
  exists samp, p, s1. eexists.
  split; [exact Hsamp|]. split; [exact Hp|]. split; [exact Hlen|].
  split; [exact Hplen|]. split; [exact Hulen|].
  unfold ZINB.sample. rewrite Hsamp. cbn [bind].
  unfold torch.rand_like in *.
  destruct (torch.draw_each _ samp s1) as [u s2]. cbn [fst snd] in *.
  rewrite Hp. cbn [bind]. unfold torch.le.
  rewrite binop_same_length by congruence. cbn [bind].
  unfold torch.masked_fill.
  rewrite zip_with_length by congruence. rewrite Hulen, Nat.eqb_refl.
  reflexivity.
Qed.

Lemma draw_each_Forall {RS : RandomSource} {A : Type}
    (P : scalar -> Prop) (f : A -> rng -> scalar * rng) (xs : list A) :
  (forall x s, P (fst (f x s))) ->
  forall s, Forall P (fst (torch.draw_each f xs s)).
Proof.
  intros Hf. induction xs as [|x xs IH]; intros s; cbn; [constructor|].
  pose proof (Hf x s) as Hx. destruct (f x s) as [v s1].
  specialize (IH s1). destruct (torch.draw_each f xs s1) as [vs s2].
  cbn in *. now constructor.
Qed.

Lemma zip_with_constant {A B C : Type} (f : A -> B -> C) (c : C)
    (xs : list A) :
  forall ys,
  List.length xs = List.length ys ->
  (forall x y, In x xs -> In y ys -> f x y = c) ->
  torch.zip_with f xs ys = repeat c (List.length xs).
Proof.
  induction xs as [|x xs IH]; intros [|y ys] Hlen Hf;
    simpl in *; try discriminate; [reflexivity|].
  rewrite Hf by auto. f_equal. apply IH; [congruence|]. auto.
Qed.

(** X14. With zero-inflation probability one everywhere ([zi_logits] all
    [+inf]) and uniform draws that are finite and at most 1, every count
    [ZINB.sample] returns is zero, whatever the NB draws were. *)
Theorem zinb_sample_all_zero_at_probability_one {RS : RandomSource}
    (self : instance) (s : rng) :
  zinb_shape self ->
  zi_probs_slot self = None ->
  zi_logits_slot self = Some (repeat PosInf (List.length (mu self))) ->
  (forall s0, exists u, fst (uniform_draw s0) = Finite u /\ u <= 1) ->
  exists self' s',
    ZINB.sample self s
    = Ok (repeat (Finite 0) (List.length (mu self)), self', s').
Proof.
  intros Hshape Hprobs Hlogits Huniform.
  destruct (ZINB_sample_of_shape self s Hshape)
    as (samp & p & s1 & self' & _ & Hp & Hlen & Hplen & Hulen & Hrun).
  unfold ZINB.zi_probs in Hp. rewrite Hprobs, Hlogits in Hp.
  injection Hp as <- _.
  exists self'. eexists. rewrite Hrun. f_equal. f_equal. f_equal.
  pose proof (draw_each_Forall
                (fun v => exists u, v = Finite u /\ u <= 1)
                (fun _ : scalar => uniform_draw) samp
                (fun _ s0 => Huniform s0) s1) as Hu.
  fold (torch.rand_like samp s1) in Hu.
  rewrite (zip_with_constant Num.leb true).
  - rewrite Hulen, <- Hlen. apply zip_with_constant.
    + now rewrite repeat_length.
    + intros x b _ Hb. apply repeat_spec in Hb. now subst.
  - congruence.
  - intros v q Hv Hq. rewrite Forall_forall in Hu.
    destruct (Hu v Hv) as [u [-> Hle]].
    unfold torch.logits_to_probs, torch.sigmoid in Hq.
    rewrite map_repeat in Hq. apply repeat_spec in Hq. subst q.
    cbn. destruct (Rleb_spec u 1); [reflexivity|contradiction].
Qed.

Lemma zinb_sample_all_zero_at_probability_one_witness :
  exists self' s',
    @ZINB.sample counting_source
      {| klass := cls_ZINB; mu := [Finite 2; Finite 2];
         theta := [Finite 1; Finite 1];
         _eps := Finite 1e-8; _validate_args := true;
         zi_logits_slot := Some (repeat PosInf 2); zi_probs_slot := None |}
      0%nat
    = Ok (repeat (Finite 0) 2, self', s').
Proof.
  apply (@zinb_sample_all_zero_at_probability_one counting_source
           {| klass := cls_ZINB; mu := [Finite 2; Finite 2];
              theta := [Finite 1; Finite 1];
              _eps := Finite 1e-8; _validate_args := true;
              zi_logits_slot := Some (repeat PosInf 2);
              zi_probs_slot := None |} 0%nat).
  - split; [reflexivity|]. eexists. repeat split. discriminate.
  - reflexivity.
  - reflexivity.
  - intros s0. cbn. destruct (Nat.even s0); eexists; split;
      try reflexivity; lra.
Defined.

(** X12. Sampling keeps the batch shape: whenever [NB.sample] returns on an
    instance whose parameters have one shape, and whenever [ZINB.sample]
    returns on a well-shaped ZINB instance, the result has one count per
    element of [mu]. *)
Theorem sample_keeps_batch_shape {RS : RandomSource}
    (self self' : instance) (s s1 s2 : rng) (samp out : tensor) :
  (same_shape self ->
   NB.sample self s = Ok (samp, s1) ->
   List.length samp = List.length (mu self))
  /\ (zinb_shape self ->
      ZINB.sample self s = Ok (out, self', s2) ->
      List.length out = List.length (mu self)).
Proof.
  split.
  - intros Hshape Hrun.
    destruct (NB_sample_length self s Hshape) as (samp0 & s0 & Hrun0 & Hlen).
    rewrite Hrun0 in Hrun. now injection Hrun as <- _.
  - intros Hshape Hrun.
    destruct (ZINB_sample_of_shape self s Hshape)
      as (samp0 & p & s0 & self0 & _ & _ & Hlen & Hplen & Hulen & Hrun0).
    rewrite Hrun0 in Hrun. injection Hrun as <- _ _.
    rewrite zip_with_length; [exact Hlen|].
    rewrite zip_with_length; congruence.
Qed.

Lemma sample_keeps_batch_shape_witness :
  List.length [Finite 0; Finite 1] = List.length (mu example_ZINB).
Proof.
  destruct (@sample_keeps_batch_shape counting_source example_ZINB
              (set_zi_probs example_ZINB [Finite (1 / 2); Finite (1 / 2)])
              0%nat 4%nat 6%nat [Finite 1; Finite 1] [Finite 0; Finite 1])
    as [_ Hzinb].
  apply Hzinb.
  - exact example_ZINB_shape.
  - apply ZINB_sample_run.
Defined.

(** What [ZINB.sample] does to the instance is what [zi_probs] does. *)
Lemma ZINB_sample_instance {RS : RandomSource}
    (self self' : instance) (s s' : rng) (out : tensor) :
  ZINB.sample self s = Ok (out, self', s') ->
  exists p, ZINB.zi_probs self = Ok (p, self').
Proof.
  unfold ZINB.sample.
  destruct (NB.sample self s) as [[samp s1]|e]; [|discriminate].
  cbn [bind]. destruct (torch.rand_like samp s1) as [u s2].
  destruct (ZINB.zi_probs self) as [[p self0]|e]; [|discriminate].
  cbn [bind]. destruct (torch.le u p) as [mask|e]; [|discriminate].
  cbn [bind]. destruct (torch.masked_fill samp mask (Finite 0)) as [r|e];
    [|discriminate].
  cbn [bind]. intros [= _ <- _]. now exists p.
Qed.

(** X13. Whenever [ZINB.sample] returns on a freshly constructed instance,
    the instance it leaves is the constructed one with
    [zi_probs = logits_to_probs(zi_logits)] stored and nothing else changed;
    and whenever a later [sample] returns, it leaves that instance exactly
    as it is. *)
Theorem zinb_sample_stores_zi_probs {RS : RandomSource}
    (total_count probs logits mu0 theta0 zi_logits : option tensor)
    (validate_args : bool) (self self' : instance) (s s' : rng)
    (out : tensor) :
  ZINB.__init__ total_count probs logits mu0 theta0 zi_logits validate_args
    = Ok self ->
  ZINB.sample self s = Ok (out, self', s') ->
  exists zl : tensor,
    zi_logits_slot self = Some zl
    /\ self' = set_zi_probs self (torch.logits_to_probs zl)
    /\ forall (s2 s2' : rng) (out2 : tensor) (self2 : instance),
         ZINB.sample self' s2 = Ok (out2, self2, s2') -> self2 = self'.
Proof.
  intros Hinit Hrun. apply ZINB_init_Ok in Hinit.
  destruct Hinit as (_ & _ & Hprobs & _ & (zl0 & n & _ & Hlogits)).
  exists (torch.expand n zl0). split; [exact Hlogits|].
  apply ZINB_sample_instance in Hrun. destruct Hrun as [p Hp].
  unfold ZINB.zi_probs in Hp. rewrite Hprobs, Hlogits in Hp.
  injection Hp as _ <-. split; [reflexivity|].
  intros s2 s2' out2 self2 Hrun2.
  apply ZINB_sample_instance in Hrun2. destruct Hrun2 as [p2 Hp2].
  unfold ZINB.zi_probs in Hp2. cbn [set_zi_probs zi_probs_slot] in Hp2.
  now injection Hp2 as _ <-.
Qed.

Lemma example_ZINB_constructed :
  ZINB.__init__ None None None (Some [Finite 2; Finite 2])
    (Some [Finite 1; Finite 1]) (Some [Finite 0; Finite 0]) true
  = Ok example_ZINB.
Proof.
  unfold ZINB.__init__. rewrite NB_init_decompose.
  unfold normalized_parameters, NB.__init__.
  cbn [is_none is_some Bool.eqb negb andb orb].
  rewrite broadcast_all_same_length by reflexivity.
  cbn [unpack2 bind torch.Distribution_init mu theta fst snd].
  replace (check_all (greater_than_eq 0) [Finite 2; Finite 2]) with true
    by (cbn; Rdecide; reflexivity).
  replace (check_all (greater_than_eq 0) [Finite 1; Finite 1]) with true
    by (cbn; Rdecide; reflexivity).
  reflexivity.
Qed.

Lemma zinb_sample_stores_zi_probs_witness :
  exists zl : tensor,
    zi_logits_slot example_ZINB = Some zl
    /\ set_zi_probs example_ZINB [Finite (1 / 2); Finite (1 / 2)]
       = set_zi_probs example_ZINB (torch.logits_to_probs zl)
    /\ forall (s2 s2' : nat) (out2 : tensor) (self2 : instance),
         @ZINB.sample counting_source
           (set_zi_probs example_ZINB [Finite (1 / 2); Finite (1 / 2)]) s2
         = Ok (out2, self2, s2') ->
         self2 = set_zi_probs example_ZINB [Finite (1 / 2); Finite (1 / 2)].
Proof.
  apply (@zinb_sample_stores_zi_probs counting_source None None None
           (Some [Finite 2; Finite 2]) (Some [Finite 1; Finite 1])
           (Some [Finite 0; Finite 0]) true example_ZINB
           (set_zi_probs example_ZINB [Finite (1 / 2); Finite (1 / 2)])
           0%nat 6%nat [Finite 0; Finite 1]).
  - exact example_ZINB_constructed.
  - apply ZINB_sample_run.
Defined.

(** ** [ZINB.log_prob] *)

(** X15. On an instance returned by [ZINB.__init__], [log_prob] with
    validation raises DomainError when some observed value is negative or not
    an integer and otherwise returns
    [log_zinb_positive(value, mu, theta, zi_logits, 1e-8)] on the stored
    [zi_logits]; without validation it returns that for any value.  The
    instance is returned as it was: no lazy attribute is computed. *)
Theorem ZINB_log_prob_validation {K : Kernels}
    (total_count probs logits mu0 theta0 zi_logits : option tensor)
    (validate_args : bool) (self : instance) (value : tensor) :
  ZINB.__init__ total_count probs logits mu0 theta0 zi_logits validate_args
    = Ok self ->
  exists zl : tensor,
    zi_logits_slot self = Some zl
    /\ (validate_args = true ->
        (Exists (fun x => negative x \/ ~ integer_valued x) value ->
         ZINB.log_prob self value = Raise DomainError)
        /\ (Forall (fun x => ~ negative x /\ integer_valued x) value ->
            ZINB.log_prob self value
            = Ok (log_zinb_positive value (mu self) (theta self) zl
                    (Finite 1e-8), self)))
    /\ (validate_args = false ->
        ZINB.log_prob self value
        = Ok (log_zinb_positive value (mu self) (theta self) zl
                (Finite 1e-8), self)).
Proof.
  intros Hinit. apply ZINB_init_Ok in Hinit.
  destruct Hinit as (_ & Hflag & _ & _ & (zl0 & n & _ & Hlogits)).
  exists (torch.expand n zl0). split; [exact Hlogits|].
  unfold ZINB.log_prob, ZINB.zi_logits. rewrite Hflag, Hlogits.
  split; intros ->; [split; intros Hvalue|].
  - now rewrite validate_sample_rejects.
  - now rewrite validate_sample_accepts.
  - reflexivity.
Qed.

Lemma ZINB_log_prob_validation_witness :
  @ZINB.log_prob echo_kernels
    {| klass := cls_ZINB; mu := [Finite 2]; theta := [Finite 1];
       _eps := Finite 1e-8; _validate_args := true;
       zi_logits_slot := Some [Finite 0]; zi_probs_slot := None |}
    [Finite (1 / 2)]
  = Raise DomainError.
Proof.
  destruct (ZINB_log_prob_validation (K := echo_kernels) None None None
              (Some [Finite 2]) (Some [Finite 1]) (Some [Finite 0]) true _
              [Finite (1 / 2)] (ZINB_init_example (Finite 0) true))
    as (zl & _ & Hon & _).
  destruct (Hon eq_refl) as [Hreject _]. apply Hreject.
  constructor. right. intros [k Hk]. injection Hk as Hk.
  assert (Hz : (0 < k < 1)%Z).
  { split; apply lt_IZR; rewrite <- Hk; lra. }
  lia.
Defined.

(** ** Errors of [from_nb_params2_to_1] *)

(** X16. [from_nb_params2_to_1] fails its assertion exactly when one of [mu]
    and [theta] is missing and the other is not; with both missing the
    assertion passes and the call fails on [mu + eps]; with both present it
    fails only on shapes that cannot be broadcast, and otherwise returns
    [theta] itself as [total_count] together with logits of the broadcast
    shape. *)
Theorem from_nb_params2_to_1_outcomes (mu0 theta0 : tensor) (eps : scalar) :
  from_nb_params2_to_1 (Some mu0) None eps = Raise AssertionError
  /\ from_nb_params2_to_1 None (Some theta0) eps = Raise AssertionError
  /\ from_nb_params2_to_1 None None eps = Raise TypeError
  /\ (torch.broadcast_size (List.length mu0) (List.length theta0) = None ->
      from_nb_params2_to_1 (Some mu0) (Some theta0) eps = Raise ShapeError)
  /\ (forall n,
        torch.broadcast_size (List.length mu0) (List.length theta0) = Some n ->
        exists logits,
          from_nb_params2_to_1 (Some mu0) (Some theta0) eps
          = Ok (theta0, logits)
          /\ List.length logits = n).
Proof.
  repeat split.
  - intros Hnone. unfold from_nb_params2_to_1, torch.sub, torch.binop.
    cbn [is_none Bool.eqb negb].
    unfold torch.log, torch.add_scalar. rewrite !length_map.
    now rewrite Hnone.
  - intros n Hn. unfold from_nb_params2_to_1, torch.sub, torch.binop.
    cbn [is_none Bool.eqb negb].
    unfold torch.log, torch.add_scalar. rewrite !length_map, Hn.
    cbn [bind]. eexists. split; [reflexivity|].
    apply broadcast_size_inv in Hn. destruct Hn as [Hm Ht].
    rewrite zip_with_length;
      rewrite !expand_length; rewrite ?length_map; auto.
Qed.

Lemma from_nb_params2_to_1_outcomes_witness :
  from_nb_params2_to_1 (Some [Finite 1; Finite 2])
    (Some [Finite 1; Finite 2; Finite 3]) (Finite 1e-6)
  = Raise ShapeError.
Proof.
  apply (from_nb_params2_to_1_outcomes [Finite 1; Finite 2]
           [Finite 1; Finite 2; Finite 3] (Finite 1e-6)).
  reflexivity.
Defined.

(** ** Edge values in sampling *)

Lemma zip_with_keep (samp : tensor) :
  forall mask : list bool,
  List.length samp = List.length mask ->
  Forall (fun b => b = false) mask ->
  torch.zip_with (fun x (b : bool) => if b then Finite 0 else x) samp mask
  = samp.
Proof.
  induction samp as [|x samp IH]; intros [|b mask] Hlen Hall;
    simpl in *; try discriminate; [reflexivity|].
  inversion Hall; subst. f_equal. apply IH; [congruence|assumption].
Qed.

(** X18. NaN zero-inflation logits (which the constructor accepts) switch
    zero inflation off: every comparison with a NaN probability is false, so
    [ZINB.sample] returns the base NB draws unchanged, whatever the uniform
    draws are. *)
Theorem zinb_sample_with_nan_logits {RS : RandomSource}
    (self : instance) (s : rng) :
  zinb_shape self ->
  zi_probs_slot self = None ->
  zi_logits_slot self = Some (repeat NaN (List.length (mu self))) ->
  exists samp s1 self' s',
    NB.sample self s = Ok (samp, s1)
    /\ ZINB.sample self s = Ok (samp, self', s').
Proof.
  intros Hshape Hprobs Hlogits.
  destruct (ZINB_sample_of_shape self s Hshape)
    as (samp & p & s1 & self' & Hsamp & Hp & Hlen & Hplen & Hulen & Hrun).
  unfold ZINB.zi_probs in Hp. rewrite Hprobs, Hlogits in Hp.
  injection Hp as <- _.
  exists samp, s1, self'. eexists. split; [exact Hsamp|].
  rewrite Hrun. rewrite zip_with_keep; [reflexivity| |].
  - rewrite zip_with_length; congruence.
  - rewrite (zip_with_constant Num.leb false).
    + apply Forall_forall. intros b Hb. now apply repeat_spec in Hb.
    + congruence.
    + intros v q _ Hq. unfold torch.logits_to_probs, torch.sigmoid in Hq.
      rewrite map_repeat in Hq. apply repeat_spec in Hq. subst q.
      destruct v; reflexivity.
Qed.

Lemma zinb_sample_with_nan_logits_witness :
  exists samp s1 self' s',
    @NB.sample counting_source
      {| klass := cls_ZINB; mu := [Finite 2]; theta := [Finite 1];
         _eps := Finite 1e-8; _validate_args := true;
         zi_logits_slot := Some (repeat NaN 1); zi_probs_slot := None |}
      0%nat = Ok (samp, s1)
    /\ @ZINB.sample counting_source
         {| klass := cls_ZINB; mu := [Finite 2]; theta := [Finite 1];
            _eps := Finite 1e-8; _validate_args := true;
            zi_logits_slot := Some (repeat NaN 1); zi_probs_slot := None |}
         0%nat = Ok (samp, self', s').
Proof.
  apply (@zinb_sample_with_nan_logits counting_source
           {| klass := cls_ZINB; mu := [Finite 2]; theta := [Finite 1];
              _eps := Finite 1e-8; _validate_args := true;
              zi_logits_slot := Some (repeat NaN 1);
              zi_probs_slot := None |} 0%nat).
  - split; [reflexivity|]. eexists. repeat split. discriminate.
  - reflexivity.
  - reflexivity.
Defined.

Lemma clamp_max_bounded (hi : R) (x : scalar) :
  Num.clamp_max (Finite hi) x = NaN
  \/ Num.leb (Num.clamp_max (Finite hi) x) (Finite hi) = true.
Proof.
  destruct x as [a| | |]; unfold Num.clamp_max; cbn; auto.
  - destruct (Rltb_spec hi a); right; cbn;
      [destruct (Rleb_spec hi hi) | destruct (Rleb_spec a hi)];
      try reflexivity; lra.
  - right. destruct (Rleb_spec hi hi); [reflexivity|lra].
Qed.

(** X19. The rates [sample] hands to the Poisson stage are bounded: each is
    at most 1e8, or NaN (which only a NaN Gamma draw produces); an infinite
    Gamma draw, as a zero [mu] can cause, is cut to 1e8. *)
Theorem poisson_rate_is_bounded {RS : RandomSource}
    (self : instance) (s : rng) :
  same_shape self ->
  exists (l_train : tensor) (s1 : rng),
    NB.sample self s
    = Ok (torch.Poisson_sample (torch.Poisson_init l_train) s1)
    /\ Forall (fun r => r = NaN \/ Num.leb r (Finite 1e8) = true) l_train
    /\ Num.clamp_max (Finite 1e8) PosInf = Finite 1e8
    /\ forall g, Num.clamp_max (Finite 1e8) g = NaN -> g = NaN.
Proof.
  intros Hshape. eexists. eexists.
  split; [now apply NB_sample_of_same_shape|]. split; [|split].
  - unfold torch.clamp_max. apply Forall_forall. intros r Hr.
    apply in_map_iff in Hr. destruct Hr as [g [<- _]].
    apply clamp_max_bounded.
  - reflexivity.
  - intros g. destruct g as [a| | |]; unfold Num.clamp_max; cbn;
      try discriminate; auto.
    match goal with
    | |- (if ?b then _ else _) = _ -> _ => destruct b; discriminate
    end.
Qed.

Lemma poisson_rate_is_bounded_witness :
  exists (l_train : tensor) (s1 : nat),
    @NB.sample counting_source
      {| klass := cls_NB; mu := [Finite 0]; theta := [Finite 1];
         _eps := Finite 1e-8; _validate_args := true;
         zi_logits_slot := None; zi_probs_slot := None |} 0%nat
    = Ok (@torch.Poisson_sample counting_source
            (torch.Poisson_init l_train) s1)
    /\ Forall (fun r => r = NaN \/ Num.leb r (Finite 1e8) = true) l_train.
Proof.
  destruct (@poisson_rate_is_bounded counting_source
              {| klass := cls_NB; mu := [Finite 0]; theta := [Finite 1];
                 _eps := Finite 1e-8; _validate_args := true;
                 zi_logits_slot := None; zi_probs_slot := None |} 0%nat
              eq_refl)
    as (l & s1 & Hrun & Hall & _).
  exists l, s1. split; assumption.
Defined.
